(** * Refresh-token sessions of the Goals backend

    A shallow embedding of the authentication controller
    (the part of [src/controller/transcationController.js] that
    [routers/authRoutes.js] mounts as [authController]): access-token
    signing, refresh-token issuance, the per-user token collection with
    expiry pruning and a size limit, and the four request handlers
    [signup], [login], [refreshAccessToken] and [logout]. *)

From Stdlib Require Import ZArith QArith Qround Qabs Qpower Lqa.
From Stdlib Require Import Strings.Byte Strings.Ascii Floats.
From stdpp Require Import gmap strings list fin_maps.

Local Open Scope string_scope.
Local Open Scope Z_scope.

(** ** Values of the JavaScript run time *)

(** A string read from the request body or the process environment is
    truthy when it is present and not empty ([!value] is its negation). *)
Definition truthy (value : option string) : bool :=
  match value with
  | Some s => negb (String.eqb s "")
  | None => false
  end.

(** [Buffer.prototype.toString('hex')]: two lower-case digits per byte. *)
Definition hexDigit (n : N) : ascii :=
  match n with
  | 0%N => "0" | 1%N => "1" | 2%N => "2" | 3%N => "3"
  | 4%N => "4" | 5%N => "5" | 6%N => "6" | 7%N => "7"
  | 8%N => "8" | 9%N => "9" | 10%N => "a" | 11%N => "b"
  | 12%N => "c" | 13%N => "d" | 14%N => "e" | _ => "f"
  end%char.

Fixpoint toStringHex (buffer : list byte) : string :=
  match buffer with
  | [] => ""
  | b :: rest =>
      String (hexDigit (Byte.to_N b / 16))
        (String (hexDigit (Byte.to_N b mod 16)) (toStringHex rest))
  end.

(** [Array.prototype.find]: the first element the predicate holds of. *)
Definition find {A} (predicate : A → Prop) `{!∀ x, Decision (predicate x)}
    (array : list A) : option A :=
  snd <$> list_find predicate array.

(** [Array.prototype.splice(start, deleteCount)] on the array itself:
    [deleteCount] is clamped to what is left after [start]. *)
Definition splice {A} (start : nat) (deleteCount : Z) (array : list A) : list A :=
  take start array ++ drop (start + Z.to_nat deleteCount) array.

(** ** Numbers and dates

    A number is a double, with the arithmetic and the comparisons of
    IEEE 754 binary64. *)

(** The rational number a finite double is: its mantissa scaled by a
    power of two, in lowest terms. *)
Definition valueOf (number : float) : Q :=
  match Prim2SF number with
  | S754_finite sign mantissa exponent =>
      Qred (inject_Z (if sign then Z.neg mantissa else Z.pos mantissa)
            * Qpower 2 exponent)
  | _ => 0%Q
  end.

(** The double a whole number is, or is nearest to. *)
Definition toNumber (integer : Z) : float :=
  SF2Prim (binary_normalize prec emax integer 0 false).

(** [ToIntegerOrInfinity] of a finite number: the fraction is cut off,
    towards zero. *)
Definition ToIntegerOrInfinity (number : Q) : Z :=
  Qnum number ÷ Z.pos (Qden number).

(** The time value of a [Date] in milliseconds since the epoch; [None]
    is NaN, the time value of an Invalid Date. *)
Definition Date := option Z.

(** [new Date(value)] for a number ([TimeClip]): NaN, or a time more
    than 8.64e15 ms from the epoch, makes an Invalid Date. *)
Definition newDate (value : float) : Date :=
  if is_nan value || (8640000000000000 <? abs value)%float
  then None
  else Some (ToIntegerOrInfinity (valueOf value)).

(** [date.getTime() > now] and [date.getTime() <= now]: both are false
    of an Invalid Date. *)
Definition laterThan (now : Z) (date : Date) : Prop :=
  match date with
  | Some time => now < time
  | None => False
  end.

Definition notLaterThan (now : Z) (date : Date) : Prop :=
  match date with
  | Some time => time ≤ now
  | None => False
  end.

Global Instance laterThan_dec now date : Decision (laterThan now date).
Proof. destruct date; cbn; apply _. Defined.

Global Instance notLaterThan_dec now date : Decision (notLaterThan now date).
Proof. destruct date; cbn; apply _. Defined.

(** ** Configuration read from [process.env] *)

(** A numeric variable is given by the value [Number(...)] has of it,
    which is NaN when the variable is unset or not a number. *)
Record ProcessEnv := {
  JWT_SECRET : option string;
  JWT_ACCESS_EXPIRES_IN : option string;
  JWT_REFRESH_DAYS : float;
  JWT_REFRESH_MAX_TOKENS : float;
}.

Definition parsePositiveNumber (parsed fallback : float) : float :=
  if is_finite parsed && (0 <? parsed)%float then parsed else fallback.

Definition ACCESS_TOKEN_EXPIRES_IN (env : ProcessEnv) : string :=
  if truthy (JWT_ACCESS_EXPIRES_IN env)
  then default "15m" (JWT_ACCESS_EXPIRES_IN env)
  else "15m".

Definition REFRESH_TOKEN_TTL_DAYS (env : ProcessEnv) : float :=
  parsePositiveNumber (JWT_REFRESH_DAYS env) 30.

Definition MAX_REFRESH_TOKENS (env : ProcessEnv) : float :=
  parsePositiveNumber (JWT_REFRESH_MAX_TOKENS env) 5.

Definition DAY_IN_MS : float := 24 * 60 * 60 * 1000.

(** ** Documents *)

Definition ObjectId := positive.

(** One element of [user.refreshTokens]: the digest of a refresh token
    and the [Date] of its expiry. *)
Record RefreshTokenEntry := {
  token : string;
  expiresAt : Date;
}.

Global Instance RefreshTokenEntry_eq_dec : EqDecision RefreshTokenEntry.
Proof. solve_decision. Defined.

(** Modelled from the spec: the schema of the User model
    ([models/User.js]) is not among the sources. A user record has an
    opaque credential hash and an ordered [refreshTokens] sequence of
    (digest, expiry) pairs, oldest first; name and e-mail are the fields
    the controller reads. The identifier [_id] is the key under which
    the record is stored. *)
Record User := {
  name : string;
  email : string;
  password : string;
  refreshTokens : list RefreshTokenEntry;
}.

Global Instance User_eq_dec : EqDecision User.
Proof. solve_decision. Defined.

Definition set_refreshTokens (user : User) (entries : list RefreshTokenEntry) : User :=
  {| name := name user; email := email user; password := password user;
     refreshTokens := entries |}.

(** ** Responses *)

#[warnings="-register-all"] Inductive JSON :=
  | JString (s : string)
  | JObjectId (i : ObjectId)
  | JObject (fields : list (string * JSON)).

Record Response := {
  statusCode : Z;
  json : list (string * JSON);
}.

(** The value of a top-level field of a response body. *)
Definition field (key : string) (body : list (string * JSON)) : option JSON :=
  snd <$> find (λ kv : string * JSON, kv.1 = key) body.

(** [res.status(code).json({ message })] *)
Definition respondMessage (code : Z) (message : string) : Response :=
  {| statusCode := code; json := [("message", JString message)] |}.

(** ** The world a request runs in *)

(** The users collection, how often it has been written to, and how
    many readings of the clock and how many bytes of entropy have been
    consumed so far. *)
Record World := {
  users : gmap ObjectId User;
  writes : nat;
  ticks : nat;
  drawn : nat;
}.

(** The world after the users collection was written as [db]. *)
Definition persist (w : World) (db : gmap ObjectId User) : World :=
  {| users := db; writes := S (writes w); ticks := ticks w; drawn := drawn w |}.

(** The world after one reading of the clock. *)
Definition tick (w : World) : World :=
  {| users := users w; writes := writes w; ticks := S (ticks w); drawn := drawn w |}.

(** The world after [size] bytes of entropy were taken. *)
Definition draw (size : nat) (w : World) : World :=
  {| users := users w; writes := writes w; ticks := ticks w;
     drawn := (drawn w + size)%nat |}.

Inductive Outcome (A : Type) :=
  | Returned (a : A)
  | Thrown (error : string).
Global Arguments Returned {A} a.
Global Arguments Thrown {A} error.

(** A computation that runs in the world and returns or throws. *)
Definition Async (A : Type) : Type := World → Outcome A * World.

Global Instance Async_ret : MRet Async := λ A a w, (Returned a, w).

Global Instance Async_bind : MBind Async := λ A B f m w,
  match m w with
  | (Returned a, w') => f a w'
  | (Thrown error, w') => (Thrown error, w')
  end.

Definition throw {A} (error : string) : Async A := λ w, (Thrown error, w).

(** [try { ... } catch (error) { console.error(...); return res.status(500)... }] *)
Definition tryCatch (body : Async Response) (w : World) : Response * World :=
  match body w with
  | (Returned res, w') => (res, w')
  | (Thrown _, w') => (respondMessage 500 "Server error", w')
  end.

(** ** Collaborators outside the controller *)

(** The libraries and the surroundings the controller calls into. The
    clock and the entropy source are streams: reading consumes from
    them, see [Date_now] and [randomBytes]. *)
Class Host := {
  (** [crypto.createHash('sha256').update(s).digest('hex')]: a SHA-256
      digest is 32 bytes, 64 hexadecimal digits. *)
  sha256Hex : string → string;
  sha256Hex_length : ∀ s, String.length (sha256Hex s) = 64%nat;
  (** [jwt.sign({ id }, secret, { expiresIn })], stamped with the time
      of signing; [None] when it throws, as it does of a lifetime that
      is not a time span. *)
  jwtSign : ObjectId → string → string → Z → option string;
  (** Modelled from the spec: the credential verifier of the User model
      ([models/User.js]) is not among the sources; it stores a hash of
      the password and validates a submitted password against it. *)
  hashPassword : string → string;
  comparePassword : User → string → bool;
  (** [String.prototype.trim] *)
  trim : string → string;
  (** successive values of [Date.now()] *)
  clock : nat → Z;
  (** successive bytes of [crypto.randomBytes] *)
  entropy : nat → byte;
  process_env : ProcessEnv;
}.

Section Controller.
Context {host : Host}.

Abbreviation env := process_env.

(** *** Effects *)

Definition Date_now : Async Z := λ w, (Returned (clock (ticks w)), tick w).

Definition randomBytes (size : nat) : Async (list byte) := λ w,
  (Returned (entropy <$> seq (drawn w) size), draw size w).

(** [User.findOne(query)]: the first stored document the query holds
    of, with its [_id], or [None] (JavaScript's [null]). *)
Definition findOne (query : User → Prop) `{!∀ u, Decision (query u)}
    (collection : gmap ObjectId User) : option (ObjectId * User) :=
  snd <$> list_find (λ doc : ObjectId * User, query doc.2) (map_to_list collection).

Definition User_findOne (query : User → Prop) `{!∀ u, Decision (query u)}
    : Async (option (ObjectId * User)) := λ w,
  (Returned (findOne query (users w)), w).

(** [User.create({ name, email, password })]: a new document under a
    fresh [_id], with the password hashed and no refresh tokens. *)
Definition User_create (name email password : string) : Async (ObjectId * User) := λ w,
  let _id := fresh (dom (users w)) in
  let user := {| name := name; email := email;
                 password := hashPassword password; refreshTokens := [] |} in
  (Returned (_id, user), persist w (<[_id := user]> (users w))).

(** [user.save()]: the whole document is written under its [_id]. *)
Definition save (doc : ObjectId * User) : Async () := λ w,
  (Returned (), persist w (<[doc.1 := doc.2]> (users w))).

(** *** Tokens *)

Definition ensureJwtSecret : Async string :=
  if truthy (JWT_SECRET env)
  then mret (default "" (JWT_SECRET env))
  else throw "Missing JWT_SECRET in environment variables".

(** [jwt.sign] stamps the token with the time of signing, which it
    reads from the clock itself, and throws when it cannot sign. *)
Definition signAccessToken (userId : ObjectId) : Async string :=
  secret ← ensureJwtSecret;
  now ← Date_now;
  match jwtSign userId secret (ACCESS_TOKEN_EXPIRES_IN env) now with
  | Some signed => mret signed
  | None => throw "jwt.sign failed"
  end.

Definition generateRefreshTokenValue : Async string :=
  bytes ← randomBytes 40;
  mret (toStringHex bytes).

Definition hashToken (token : string) : string := sha256Hex token.

Definition buildUserPayload (doc : ObjectId * User) : list (string * JSON) :=
  [("id", JObjectId doc.1); ("name", JString (name doc.2));
   ("email", JString (email doc.2))].

(** *** The refresh-token collection of a user *)

Definition pruneExpiredTokens (user : User) : Async User :=
  now ← Date_now;
  mret (set_refreshTokens user
          (filter (λ entry, laterThan now (expiresAt entry)) (refreshTokens user))).

(** [user.refreshTokens.length], a whole number. *)
Definition length_ (user : User) : Q :=
  inject_Z (Z.of_nat (length (refreshTokens user))).

(** The length and the limit are compared as the rational numbers they
    are, which is how doubles compare. Their difference is taken
    exactly, where the run time rounds it to a double: the whole part
    of the two is the same unless the limit exceeds a whole number by
    less than 2^-52 of the length. *)
Definition enforceTokenLimit (user : User) : User :=
  let limit := valueOf (MAX_REFRESH_TOKENS env) in
  if Qle_bool (length_ user) limit
  then user
  else
    let excess := (length_ user - limit)%Q in
    set_refreshTokens user
      (splice 0 (ToIntegerOrInfinity excess) (refreshTokens user)).

Definition attachRefreshToken (user : User) (refreshTokenValue : string) : Async User :=
  let hashed := hashToken refreshTokenValue in
  now ← Date_now;
  let expiresAt :=
    newDate (toNumber now + REFRESH_TOKEN_TTL_DAYS env * DAY_IN_MS)%float in
  mret (set_refreshTokens user
          (refreshTokens user ++ [{| token := hashed; expiresAt := expiresAt |}])).

Record Tokens := {
  accessToken : string;
  refreshToken : string;
}.

(** The user object is mutated in place by the source; here the updated
    object is returned next to the tokens. *)
Definition issueTokensForUser (doc : ObjectId * User) : Async (User * Tokens) :=
  user ← pruneExpiredTokens doc.2;
  let user := enforceTokenLimit user in
  refreshToken ← generateRefreshTokenValue;
  user ← attachRefreshToken user refreshToken;
  _ ← save (doc.1, user);
  accessToken ← signAccessToken doc.1;
  mret (user, {| accessToken := accessToken; refreshToken := refreshToken |}).

Definition removeRefreshToken (user : User) (hashedToken : string) : User * bool :=
  let initialLength := length (refreshTokens user) in
  let user := set_refreshTokens user
                (filter (λ entry, token entry ≠ hashedToken) (refreshTokens user)) in
  (user, bool_decide (initialLength ≠ length (refreshTokens user))).

Definition respondWithTokens (statusCode : Z) (message : string)
    (doc : ObjectId * User) (tokens : Tokens) : Response :=
  {| statusCode := statusCode;
     json := [("message", JString message);
              ("token", JString (accessToken tokens));
              ("accessToken", JString (accessToken tokens));
              ("refreshToken", JString (refreshToken tokens));
              ("user", JObject (buildUserPayload doc))] |}.

(** *** Request handlers *)

(** A value of a JSON body: [null], a boolean, a number, a string, or
    an array or object. *)
Inductive Field :=
  | FNull
  | FBool (b : bool)
  | FNumber (n : float)
  | FString (s : string)
  | FComposite.

(** [!!value] of a field, [None] being a field that is absent. *)
Definition truthyField (value : option Field) : bool :=
  match value with
  | None => false
  | Some FNull => false
  | Some (FBool b) => b
  | Some (FNumber n) => negb ((n =? 0)%float || is_nan n)
  | Some (FString s) => negb (String.eqb s "")
  | Some FComposite => true
  end.

(** The fields the handlers read from [req.body]; [None] is a field
    that is absent. The name and the refresh token are any value: the
    controller itself calls [trim] on the one and hashes the other. The
    e-mail and the password are handed to the User model as they are;
    what that model makes of values that are not strings is not among
    the sources, and they are strings here. *)
Record Body := {
  body_name : option Field;
  body_email : option string;
  body_password : option string;
  body_refreshToken : option Field;
}.

(** [name.trim()]: only a string has a [trim]. *)
Definition callTrim (value : Field) : Async string :=
  match value with
  | FString s => mret (trim s)
  | _ => throw "name.trim is not a function"
  end.

(** [hashToken(refreshToken)] of a field of the body: [update] throws
    unless it is given a string. *)
Definition hashTokenOf (value : Field) : Async string :=
  match value with
  | FString s => mret (hashToken s)
  | _ => throw "The data argument must be of type string"
  end.

(** The query [{ 'refreshTokens.token': hashedToken }]. *)
Definition holdsToken (hashedToken : string) (user : User) : Prop :=
  Exists (λ entry, token entry = hashedToken) (refreshTokens user).

Global Instance holdsToken_dec hashedToken user : Decision (holdsToken hashedToken user).
Proof. unfold holdsToken. apply _. Defined.

Definition signup (body : Body) : World → Response * World :=
  tryCatch (
    if negb (truthyField (body_name body)) || negb (truthy (body_email body))
       || negb (truthy (body_password body))
    then mret (respondMessage 400 "Name, email and password are required")
    else
      let name := default FNull (body_name body) in
      let email_ := default "" (body_email body) in
      let password := default "" (body_password body) in
      existingUser ← User_findOne (λ u, email u = email_);
      match existingUser with
      | Some _ => mret (respondMessage 409 "Email already in use")
      | None =>
          trimmed ← callTrim name;
          doc ← User_create trimmed email_ password;
          '(user, tokens) ← issueTokensForUser doc;
          mret (respondWithTokens 201 "User created successfully" (doc.1, user) tokens)
      end).

Definition login (body : Body) : World → Response * World :=
  tryCatch (
    if negb (truthy (body_email body)) || negb (truthy (body_password body))
    then mret (respondMessage 400 "Email and password are required")
    else
      let email_ := default "" (body_email body) in
      let password := default "" (body_password body) in
      found ← User_findOne (λ u, email u = email_);
      match found with
      | None => mret (respondMessage 401 "Invalid credentials")
      | Some doc =>
          let isMatch := comparePassword doc.2 password in
          if negb isMatch
          then mret (respondMessage 401 "Invalid credentials")
          else
            '(user, tokens) ← issueTokensForUser doc;
            mret (respondWithTokens 200 "Login successful" (doc.1, user) tokens)
      end).

Definition refreshAccessToken (body : Body) : World → Response * World :=
  tryCatch (
    if negb (truthyField (body_refreshToken body))
    then mret (respondMessage 400 "Refresh token is required")
    else
      hashedToken ← hashTokenOf (default FNull (body_refreshToken body));
      found ← User_findOne (holdsToken hashedToken);
      match found with
      | None => mret (respondMessage 401 "Invalid refresh token")
      | Some doc =>
          let storedToken :=
            find (λ entry, token entry = hashedToken) (refreshTokens doc.2) in
          expired ← match storedToken with
                    | None => mret true
                    | Some stored =>
                        now ← Date_now;
                        mret (bool_decide (notLaterThan now (expiresAt stored)))
                    end;
          if expired : bool
          then
            let user := (removeRefreshToken doc.2 hashedToken).1 in
            _ ← save (doc.1, user);
            mret (respondMessage 401 "Refresh token expired")
          else
            let user := (removeRefreshToken doc.2 hashedToken).1 in
            '(user, tokens) ← issueTokensForUser (doc.1, user);
            mret (respondWithTokens 200 "Token refreshed" (doc.1, user) tokens)
      end).

Definition logout (body : Body) : World → Response * World :=
  tryCatch (
    if negb (truthyField (body_refreshToken body))
    then mret (respondMessage 400 "Refresh token is required")
    else
      hashedToken ← hashTokenOf (default FNull (body_refreshToken body));
      found ← User_findOne (holdsToken hashedToken);
      _ ← match found with
          | Some doc =>
              let '(user, removed) := removeRefreshToken doc.2 hashedToken in
              if removed : bool then save (doc.1, user) else mret ()
          | None => mret ()
          end;
      mret (respondMessage 200 "Logged out successfully")).

End Controller.

(** ** Vocabulary of the statements *)

(** The spec's wording of [remove], to compare [removeRefreshToken]
    with: "Removes the first entry matching [hash]", later entries with
    the same digest staying in place. *)
Fixpoint removeFirstMatch (hash : string) (collection : list RefreshTokenEntry)
    : list RefreshTokenEntry :=
  match collection with
  | [] => []
  | entry :: rest =>
      if decide (token entry = hash) then rest
      else entry :: removeFirstMatch hash rest
  end.

Section Vocabulary.
Context {host : Host}.

(** The raw refresh token [generateRefreshTokenValue] produces in world
    [w]: the next 40 bytes of entropy in hexadecimal. *)
Definition nextRefreshToken (w : World) : string :=
  toStringHex (entropy <$> seq (drawn w) 40).

(** The [Date] [attachRefreshToken] makes when the clock reads [now]. *)
Definition expiry (now : Z) : Date :=
  newDate (toNumber now + REFRESH_TOKEN_TTL_DAYS process_env * DAY_IN_MS)%float.

(** The entry [attachRefreshToken] appends for [raw] when the clock
    reads [now]. *)
Definition entryOf (raw : string) (now : Z) : RefreshTokenEntry :=
  {| token := hashToken raw; expiresAt := expiry now |}.

(** The limit on the refresh tokens of a user, as a rational number. *)
Definition limit : Q := valueOf (MAX_REFRESH_TOKENS process_env).

(** The number of entries [enforceTokenLimit] leaves at most: the limit,
    rounded up when it is not whole. *)
Definition capacity : Z := Qceiling limit.

(** The entries of [user] that are unexpired when the clock reads the
    time of world [w]. *)
Definition live (user : User) (w : World) : list RefreshTokenEntry :=
  filter (λ entry, laterThan (clock (ticks w)) (expiresAt entry)) (refreshTokens user).

(** The entries of [user] that [issueTokensForUser] keeps in world [w]:
    pruned at the first reading of the clock, then cut to the limit. *)
Definition retained (user : User) (w : World) : list RefreshTokenEntry :=
  refreshTokens (enforceTokenLimit (set_refreshTokens user (live user w))).

(** The user object as [issueTokensForUser] saves it in world [w]. *)
Definition reissued (user : User) (w : World) : User :=
  set_refreshTokens user
    (retained user w ++ [entryOf (nextRefreshToken w) (clock (S (ticks w)))]).

(** The digest [hash] is stored for at most one user. Every stored
    digest comes from a draw of 320 bits of entropy of its own, so this
    holds of the stores the controller builds unless a draw or a digest
    repeats. *)
Definition heldByOneUser (hash : string) (collection : gmap ObjectId User) : Prop :=
  ∀ i j u v, collection !! i = Some u → collection !! j = Some v →
    holdsToken hash u → holdsToken hash v → i = j.

(** No user stores the digest [hash]. *)
Definition unheld (hash : string) (collection : gmap ObjectId User) : Prop :=
  ∀ i u, collection !! i = Some u → ¬ holdsToken hash u.

(** What [jwt.sign] gives for the user under [_id] when the clock reads
    [now]. *)
Definition signed (_id : ObjectId) (now : Z) : option string :=
  jwtSign _id (default "" (JWT_SECRET process_env))
          (ACCESS_TOKEN_EXPIRES_IN process_env) now.

(** Signing succeeds for the user under [_id]: the secret is set and
    [jwt.sign] accepts the configured lifetime. *)
Definition signs (_id : ObjectId) : Prop :=
  truthy (JWT_SECRET process_env) = true ∧ ∀ now, is_Some (signed _id now).

(** The tokens [issueTokensForUser] returns for the document under
    [_id] in world [w], when the signing secret is set and [jwt.sign]
    does not throw. *)
Definition issuedTokens (_id : ObjectId) (w : World) : option Tokens :=
  (λ accessToken,
     {| accessToken := accessToken; refreshToken := nextRefreshToken w |})
  <$> signed _id (clock (S (S (ticks w)))).

(** The world after [issueTokensForUser] saved the document [doc]. *)
Definition savedWorld (doc : ObjectId * User) (w : World) : World :=
  persist (draw 40 (tick (tick w))) (<[doc.1 := reissued doc.2 w]> (users w)).

(** What a handler answers, and the world it leaves, once it goes on to
    issue tokens for [doc] in [w] and to respond with them: the user is
    saved before the access token is signed. *)
Definition issue (code : Z) (message : string) (doc : ObjectId * User) (w : World)
    : Response * World :=
  if truthy (JWT_SECRET process_env)
  then
    (match issuedTokens doc.1 w with
     | Some tokens => respondWithTokens code message (doc.1, reissued doc.2 w) tokens
     | None => respondMessage 500 "Server error"
     end,
     tick (savedWorld doc w))
  else (respondMessage 500 "Server error", savedWorld doc w).

(** The document [User.create] inserts. *)
Definition created (name email password : string) : User :=
  {| name := name; email := email; password := hashPassword password;
     refreshTokens := [] |}.

(** What the three issuing handlers can answer: a bare message with a
    client- or server-error status, or the token envelope. *)
Inductive Answer (res : Response) : Prop :=
  | answer_error (code : Z) (message : string) :
      res = respondMessage code message →
      code = 400 ∨ code = 401 ∨ code = 409 ∨ code = 500 →
      Answer res
  | answer_tokens (code : Z) (message : string) (doc : ObjectId * User) (w : World)
        (tokens : Tokens) :
      issuedTokens doc.1 w = Some tokens →
      res = respondWithTokens code message doc tokens →
      Answer res.

(** The requests the controller serves, and their handlers. *)
Inductive Request :=
  | Signup (body : Body)
  | Login (body : Body)
  | Refresh (body : Body)
  | Logout (body : Body).

Definition handle (request : Request) : World → Response * World :=
  match request with
  | Signup body => signup body
  | Login body => login body
  | Refresh body => refreshAccessToken body
  | Logout body => logout body
  end.

(** The token drawn next in [w] has a digest that no user stores. *)
Definition freshDraw (w : World) : Prop :=
  unheld (hashToken (nextRefreshToken w)) (users w).

(** The worlds the controller reaches from an empty users collection
    when every draw is fresh. *)
Inductive reachable : World → Prop :=
  | reachable_empty (w : World) : users w = ∅ → reachable w
  | reachable_handle (w : World) (request : Request) :
      reachable w → freshDraw w → reachable (handle request w).2.

(** What a handler may do to the users collection of [w]: nothing, or
    save one document whose digests were stored under the same [_id]
    before or belong to the token drawn in [w]. *)
Inductive Effect (w : World) (collection : gmap ObjectId User) : Prop :=
  | effect_none : collection = users w → Effect w collection
  | effect_save (i : ObjectId) (saved : User) :
      collection = <[i := saved]> (users w) →
      (∀ hash, holdsToken hash saved →
         hash = hashToken (nextRefreshToken w)
         ∨ ∃ user, users w !! i = Some user ∧ holdsToken hash user) →
      Effect w collection.

End Vocabulary.

(** ** A host to run the controller on

    A small checksum stands in for SHA-256 (32 bytes, printed as 64
    hexadecimal digits), signing succeeds for a lifetime that starts
    with a digit, the clock advances one second per reading from
    1 700 000 000 000 ms, the entropy source counts upwards, and the
    environment sets only the signing secret, so the defaults apply: 15
    minutes, 30 days, 5 tokens. *)
Module Demo.

Definition startsWithDigit (s : string) : bool :=
  match s with
  | String c _ => (48 <=? N_of_ascii c)%N && (N_of_ascii c <=? 57)%N
  | EmptyString => false
  end.

Definition checksum (s : string) : N :=
  fold_left (λ acc c, (acc * 131 + N_of_ascii c) mod 4294967296)%N
            (String.list_ascii_of_string s) 7%N.

Definition byteAt (n : N) (k : N) : byte :=
  byte_of_ascii (ascii_of_N ((n / 256 ^ k) mod 256)).

Definition digest (s : string) : string :=
  let n := checksum s in
  toStringHex (byteAt n 3 :: byteAt n 2 :: byteAt n 1 :: byteAt n 0 :: repeat x00 28).

Definition environment : ProcessEnv :=
  {| JWT_SECRET := Some "s3cret"; JWT_ACCESS_EXPIRES_IN := None;
     JWT_REFRESH_DAYS := nan; JWT_REFRESH_MAX_TOKENS := nan |}.

Definition host : Host :=
  {| sha256Hex := digest;
     sha256Hex_length := λ s, eq_refl;
     jwtSign := λ userId secret expiresIn now,
       if startsWithDigit expiresIn
       then Some ("jwt." +:+ toStringHex [byte_of_ascii (ascii_of_pos userId)] +:+ "."
                    +:+ secret +:+ "." +:+ expiresIn)
       else None;
     hashPassword := λ p, "bcrypt:" +:+ p;
     comparePassword := λ user candidate, String.eqb (password user) ("bcrypt:" +:+ candidate);
     trim := λ s, s;
     clock := λ n, 1700000000000 + 1000 * Z.of_nat n;
     entropy := λ n, byte_of_ascii (ascii_of_nat n);
     process_env := environment |}.

Definition emptyWorld : World :=
  {| users := ∅; writes := 0; ticks := 0; drawn := 0 |}.

Definition credentials : Body :=
  {| body_name := Some (FString "A"); body_email := Some "a@x.com";
     body_password := Some "p"; body_refreshToken := None |}.

Definition withRefreshToken (value : string) : Body :=
  {| body_name := None; body_email := None; body_password := None;
     body_refreshToken := Some (FString value) |}.

(** The [refreshToken] field of a response, the empty string if absent. *)
Definition refreshTokenOf (res : Response) : string :=
  match field "refreshToken" (json res) with
  | Some (JString value) => value
  | _ => ""
  end.

(** [signup] followed by [n] logins with the same credentials. *)
Fixpoint afterLogins (n : nat) : Response * World :=
  match n with
  | O => signup (host := host) credentials emptyWorld
  | S k => login (host := host) credentials (afterLogins k).2
  end.

(** A user document holding the given entries. *)
Definition userWith (entries : list RefreshTokenEntry) : User :=
  {| name := "A"; email := "a@x.com"; password := "bcrypt:p";
     refreshTokens := entries |}.

(** An entry for the raw token [raw], expiring at [expiry]. *)
Definition entryFor (raw : string) (expiry : Z) : RefreshTokenEntry :=
  {| token := digest raw; expiresAt := Some expiry |}.


(** The digest of [t1] stored twice, around another session. *)
Definition repeatedDigest : list RefreshTokenEntry :=
  [entryFor "t1" 100; entryFor "t2" 200; entryFor "t1" 300].

(** A store with one user whose session [t1] expired long before the
    clock starts and whose session [t2] is still valid. *)
Definition staleWorld : World :=
  {| users := {[ 1%positive :=
                   userWith [entryFor "t1" 1; entryFor "t2" 2000000000000] ]};
     writes := 0; ticks := 0; drawn := 0 |}.

(** The store after [signup], the raw refresh token [signup] handed
    out, and the user as stored. *)
Definition signedUp : World := (afterLogins 0).2.

Definition firstToken : string := nextRefreshToken (host := host) emptyWorld.

Definition firstUser : User :=
  userWith [entryOf (host := host) firstToken 1700000001000].

(** The store after [signup] and four logins, and the user in it. *)
Definition fiveSessions : World := (afterLogins 4).2.

Definition regular : User :=
  default (userWith []) (users fiveSessions !! 1%positive).

End Demo.

(** ** A store in which two users hold the same digest *)
Module Collision.

Definition second : User :=
  {| name := "B"; email := "b@x.com"; password := "bcrypt:q";
     refreshTokens := [Demo.entryFor "t1" 2000000000000] |}.

Definition twoHolders : World :=
  {| users := {[ 1%positive := Demo.userWith [Demo.entryFor "t1" 2000000000000];
                 2%positive := second ]};
     writes := 0; ticks := 0; drawn := 0 |}.

End Collision.

(** ** A host whose limit is not a whole number

    The demonstration host with [JWT_REFRESH_MAX_TOKENS=2.5]. *)
Module Fractional.

Definition environment : ProcessEnv :=
  {| JWT_SECRET := Some "s3cret"; JWT_ACCESS_EXPIRES_IN := None;
     JWT_REFRESH_DAYS := nan; JWT_REFRESH_MAX_TOKENS := 2.5 |}.

Definition host : Host :=
  {| sha256Hex := Demo.digest;
     sha256Hex_length := λ s, eq_refl;
     jwtSign := jwtSign (Host := Demo.host);
     hashPassword := hashPassword (Host := Demo.host);
     comparePassword := comparePassword (Host := Demo.host);
     trim := trim (Host := Demo.host);
     clock := clock (Host := Demo.host);
     entropy := entropy (Host := Demo.host);
     process_env := environment |}.


End Fractional.

(** ** Vocabulary of the invariants *)

Section Invariants.
Context {host : Host}.

(** Every user holds at most one entry more than the limit, rounded up
    when it is not whole. *)
Definition withinBound (collection : gmap ObjectId User) : Prop :=
  ∀ i user, collection !! i = Some user →
    Z.of_nat (length (refreshTokens user)) ≤ Qceiling limit + 1.

(** Every stored [token] has the length of a SHA-256 digest in
    hexadecimal. *)
Definition digestsOnly (collection : gmap ObjectId User) : Prop :=
  ∀ i user entry, collection !! i = Some user → entry ∈ refreshTokens user →
    String.length (token entry) = 64%nat.

(** What a handler does to the users collection of [w]: nothing; or it
    saves a user with some of the entries removed; or it saves a user,
    stored before or just created, as [issueTokensForUser] leaves it. *)
Inductive Step (w : World) (collection : gmap ObjectId User) : Prop :=
  | step_none : collection = users w → Step w collection
  | step_clean (i : ObjectId) (old saved : User) :
      users w !! i = Some old →
      saved = set_refreshTokens old (refreshTokens saved) →
      refreshTokens saved `sublist_of` refreshTokens old →
      collection = <[i := saved]> (users w) →
      Step w collection
  | step_issue (i : ObjectId) (base : User) (w0 : World) :
      nextRefreshToken w0 = nextRefreshToken w →
      match users w !! i with
      | Some old =>
          base = set_refreshTokens old (refreshTokens base)
          ∧ refreshTokens base `sublist_of` refreshTokens old
      | None => refreshTokens base = []
      end →
      collection = <[i := reissued base w0]> (users w) →
      Step w collection.

(** No two stored users have the same e-mail. *)
Definition uniqueEmails (collection : gmap ObjectId User) : Prop :=
  ∀ i j u v, collection !! i = Some u → collection !! j = Some v →
    email u = email v → i = j.

(** All fields of a request body are present and not empty. *)
Definition complete (fields : list (option string)) : bool :=
  forallb truthy fields.

End Invariants.

(** * The transaction controller

    The first part of [src/controller/transcationController.js]: the
    allow-list of fields, the normalisation of a payload, and the
    handlers up to their calls of the Transaction model. *)

(** ** Values of a request body *)

(** A value of a JSON body or of a normalised payload. A number is a
    double; a [Date] carries its time value, which is NaN when the date
    is invalid; arrays and objects are values of the run time's. A field
    that is [undefined] is a field that is not in the map. *)
Inductive JsValue {JsObject : Type} :=
  | VNull
  | VBool (b : bool)
  | VNumber (n : float)
  | VString (s : string)
  | VDate (time : float)
  | VObject (o : JsObject).
Global Arguments JsValue : clear implicits.

(** What the controller needs of the JavaScript run time. *)
Class Runtime := {
  JsObject : Type;
  (** [Number(s)] for a string *)
  stringToNumber : string → float;
  (** [Number(o)] for an array or an object *)
  objectToNumber : JsObject → float;
  (** [new Date(value).getTime()] for a value that is not a [Date] *)
  dateTime : JsValue JsObject → float;
  (** [String.prototype.trim] *)
  stringTrim : string → string;
}.

Section Transactions.
Context {runtime : Runtime}.

Abbreviation Value := (JsValue JsObject).
Abbreviation Payload := (gmap string Value).

(** [!!value], with [None] for [undefined]. *)
Definition jsTruthy (value : option Value) : bool :=
  match value with
  | None => false
  | Some VNull => false
  | Some (VBool b) => b
  | Some (VNumber n) => negb (PrimFloat.eqb n 0 || PrimFloat.is_nan n)
  | Some (VString s) => negb (String.eqb s "")
  | Some (VDate _) => true
  | Some (VObject _) => true
  end.

(** [Number(value)] *)
Definition Number_ (value : Value) : float :=
  match value with
  | VNull => 0
  | VBool b => if b then 1 else 0
  | VNumber n => n
  | VString s => stringToNumber s
  | VDate time => time
  | VObject o => objectToNumber o
  end%float.

Definition allowedFields : list string :=
  ["name"; "amount"; "category"; "transaction_date"; "note"; "payment_method";
   "reference_id"; "source"; "sms_body"; "is_auto"].

(** [payload = {}] stands in for a body that is [undefined]. *)
Definition sanitizePayload (payload : option Payload) : Payload :=
  let payload := default ∅ payload in
  foldl (λ acc field,
           match payload !! field with
           | Some value => <[field := value]> acc
           | None => acc
           end)
        ∅ allowedFields.

Definition normalizeAmount (value : Value) : option float :=
  let numeric := Number_ value in
  if PrimFloat.is_nan numeric then None else Some numeric.

Definition normalizeTransactionDate (value : Value) : option Value :=
  let date := match value with
              | VDate time => time
              | _ => dateTime value
              end in
  if PrimFloat.is_nan date then None else Some (VDate date).

(** A step of the normalisation either goes on with the payload, or
    returns an error message, or throws. *)
Inductive Flow :=
  | Continue (payload : Payload)
  | Return (message : string)
  | Throw (error : string).

Definition andThen (step : Flow) (next : Payload → Flow) : Flow :=
  match step with
  | Continue payload => next payload
  | stopped => stopped
  end.

(** The payload is normalised in place: [Continue payload] is the
    result [null] with the payload as it is left. Calling [trim] on a
    name that is not a string throws. The payload has no field whose
    value is [undefined]: [sanitizePayload] makes none. *)
Definition normalizeTransactionPayload (payload : Payload) (requireNameAndAmount : bool)
    : Flow :=
  andThen
    (if requireNameAndAmount
        && (negb (jsTruthy (payload !! "name")) || bool_decide (payload !! "amount" = None))
     then Return "Name and amount are required"
     else Continue payload)
    (λ payload,
  andThen
    (if jsTruthy (payload !! "name")
     then match payload !! "name" with
          | Some (VString s) =>
              let payload := <["name" := VString (stringTrim s)]> payload in
              if bool_decide (String.length (stringTrim s) = 0%nat)
              then Return "Name cannot be empty"
              else Continue payload
          | _ => Throw "payload.name.trim is not a function"
          end
     else Continue payload)
    (λ payload,
  andThen
    (match payload !! "amount" with
     | Some value =>
         match normalizeAmount value with
         | Some normalizedAmount =>
             if PrimFloat.ltb normalizedAmount 0
             then Return "Amount must be a non-negative number"
             else Continue (<["amount" := VNumber normalizedAmount]> payload)
         | None => Return "Amount must be a non-negative number"
         end
     | None => Continue payload
     end)
    (λ payload,
    match payload !! "transaction_date" with
    | Some value =>
        match normalizeTransactionDate value with
        | Some normalizedDate =>
            Continue (<["transaction_date" := normalizedDate]> payload)
        | None => Return "Invalid transaction_date provided"
        end
    | None => Continue payload
    end))).

(** What holds of a payload [after] that the normalisation of [before]
    went through with. *)
Definition normalised (requireNameAndAmount : bool) (before after : Payload) : Prop :=
  (requireNameAndAmount = true →
     jsTruthy (before !! "name") = true ∧ is_Some (before !! "amount"))
  ∧ (∀ k, k ≠ "name" → k ≠ "amount" → k ≠ "transaction_date" →
       after !! k = before !! k)
  ∧ match before !! "name" with
    | Some (VString s) =>
        if String.eqb s ""
        then after !! "name" = Some (VString "")
        else after !! "name" = Some (VString (stringTrim s)) ∧ stringTrim s ≠ ""
    | other => after !! "name" = other ∧ jsTruthy other = false
    end
  ∧ match before !! "amount" with
    | Some value =>
        after !! "amount" = Some (VNumber (Number_ value))
        ∧ PrimFloat.is_nan (Number_ value) = false
        ∧ PrimFloat.ltb (Number_ value) 0 = false
    | None => after !! "amount" = None
    end
  ∧ match before !! "transaction_date" with
    | Some value =>
        ∃ time, after !! "transaction_date" = Some (VDate time)
                ∧ PrimFloat.is_nan time = false
                ∧ time = match value with VDate t => t | _ => dateTime value end
    | None => after !! "transaction_date" = None
    end.

(** What a payload needs for the normalisation to go through. *)
Definition acceptable (requireNameAndAmount : bool) (payload : Payload) : Prop :=
  (requireNameAndAmount = true →
     jsTruthy (payload !! "name") = true ∧ is_Some (payload !! "amount"))
  ∧ (jsTruthy (payload !! "name") = true →
       ∃ s, payload !! "name" = Some (VString s) ∧ stringTrim s ≠ "")
  ∧ (∀ value, payload !! "amount" = Some value →
       PrimFloat.is_nan (Number_ value) = false
       ∧ PrimFloat.ltb (Number_ value) 0 = false)
  ∧ (∀ value, payload !! "transaction_date" = Some value →
       PrimFloat.is_nan (match value with VDate t => t | _ => dateTime value end) = false).

(** The fields of [buildTransactionResponse], with the field of the
    document each is read from. *)
Definition responseFields : list (string * string) :=
  [("id", "_id"); ("name", "name"); ("amount", "amount"); ("category", "category");
   ("transaction_date", "transaction_date"); ("note", "note");
   ("payment_method", "payment_method"); ("reference_id", "reference_id");
   ("source", "source"); ("sms_body", "sms_body"); ("is_auto", "is_auto");
   ("createdAt", "createdAt"); ("updatedAt", "updatedAt")].

(** The object as [res.json] sends it: a field whose value is
    [undefined] is left out. *)
Definition buildTransactionResponse (transaction : Payload) : Payload :=
  foldl (λ acc field,
           match transaction !! field.2 with
           | Some value => <[field.1 := value]> acc
           | None => acc
           end)
        ∅ responseFields.

(** A request as the handlers read it: [req.user._id], set by the
    authentication middleware, [req.params.id] and [req.body]. *)
Record Req := {
  req_user : Value;
  req_id : Value;
  req_body : option Payload;
}.

(** A call of the Transaction model: [create], [find] with its sort,
    [findOne], [findOneAndUpdate] and [findOneAndDelete], each with the
    fields of its filter. *)
Inductive ModelCall :=
  | Create (document : Payload)
  | Find (user : Value)
  | FindOne (_id user : Value)
  | FindOneAndUpdate (_id user : Value) (update : Payload)
  | FindOneAndDelete (_id user : Value).

(** What the Transaction model ([models/Transaction.js] on mongoose)
    answers: to [find] the documents, sorted; to any other call the
    document, or [None] for [null]; or an error. *)
Class TransactionModel := {
  reply : ModelCall → Outcome (option Payload);
  found : Value → Outcome (list Payload);
}.

Context {model : TransactionModel}.

(** An answer: its status and the fields of its body, [None] for a
    field the body does not have. *)
Record TxAnswer := {
  tx_status : Z;
  tx_message : option string;
  tx_transaction : option Payload;
  tx_transactions : option (list Payload);
}.

Definition txMessage (code : Z) (message : string) : TxAnswer :=
  {| tx_status := code; tx_message := Some message;
     tx_transaction := None; tx_transactions := None |}.

(** [handleServerError] *)
Definition handleServerError : TxAnswer := txMessage 500 "Server error".

(** [{ user: req.user._id, ...transactionPayload }]: a field [user] of
    the payload would take the place of the first. *)
Definition withOwner (user : Value) (transactionPayload : Payload) : Payload :=
  transactionPayload ∪ {[ "user" := user ]}.

(** The handlers return the answer and the calls of the model they
    made. Reading the fields of a [null] that [create] returned would
    throw, hence the 500 there. *)
Definition createTransaction (req : Req) : TxAnswer * list ModelCall :=
  let transactionPayload := sanitizePayload (req_body req) in
  match normalizeTransactionPayload transactionPayload true with
  | Throw _ => (handleServerError, [])
  | Return validationError => (txMessage 400 validationError, [])
  | Continue transactionPayload =>
      let call := Create (withOwner (req_user req) transactionPayload) in
      match reply call with
      | Returned (Some transaction) =>
          ({| tx_status := 201; tx_message := Some "Transaction created successfully";
              tx_transaction := Some (buildTransactionResponse transaction);
              tx_transactions := None |}, [call])
      | Returned None => (handleServerError, [call])
      | Thrown _ => (handleServerError, [call])
      end
  end.

Definition getTransactions (req : Req) : TxAnswer * list ModelCall :=
  match found (req_user req) with
  | Returned transactions =>
      ({| tx_status := 200; tx_message := None; tx_transaction := None;
          tx_transactions := Some (buildTransactionResponse <$> transactions) |},
       [Find (req_user req)])
  | Thrown _ => (handleServerError, [Find (req_user req)])
  end.

Definition getTransactionById (req : Req) : TxAnswer * list ModelCall :=
  let call := FindOne (req_id req) (req_user req) in
  match reply call with
  | Returned None => (txMessage 404 "Transaction not found", [call])
  | Returned (Some transaction) =>
      ({| tx_status := 200; tx_message := None;
          tx_transaction := Some (buildTransactionResponse transaction);
          tx_transactions := None |}, [call])
  | Thrown _ => (handleServerError, [call])
  end.

Definition updateTransaction (req : Req) : TxAnswer * list ModelCall :=
  let transactionPayload := sanitizePayload (req_body req) in
  match normalizeTransactionPayload transactionPayload true with
  | Throw _ => (handleServerError, [])
  | Return validationError => (txMessage 400 validationError, [])
  | Continue transactionPayload =>
      let call := FindOneAndUpdate (req_id req) (req_user req) transactionPayload in
      match reply call with
      | Returned None => (txMessage 404 "Transaction not found", [call])
      | Returned (Some transaction) =>
          ({| tx_status := 200; tx_message := Some "Transaction updated successfully";
              tx_transaction := Some (buildTransactionResponse transaction);
              tx_transactions := None |}, [call])
      | Thrown _ => (handleServerError, [call])
      end
  end.

Definition partialUpdateTransaction (req : Req) : TxAnswer * list ModelCall :=
  let transactionPayload := sanitizePayload (req_body req) in
  if bool_decide (size transactionPayload = 0%nat)
  then (txMessage 400 "No valid fields provided for update", [])
  else
    match normalizeTransactionPayload transactionPayload false with
    | Throw _ => (handleServerError, [])
    | Return validationError => (txMessage 400 validationError, [])
    | Continue transactionPayload =>
        let call := FindOneAndUpdate (req_id req) (req_user req) transactionPayload in
        match reply call with
        | Returned None => (txMessage 404 "Transaction not found", [call])
        | Returned (Some transaction) =>
            ({| tx_status := 200; tx_message := Some "Transaction updated successfully";
                tx_transaction := Some (buildTransactionResponse transaction);
                tx_transactions := None |}, [call])
        | Thrown _ => (handleServerError, [call])
        end
    end.

Definition deleteTransaction (req : Req) : TxAnswer * list ModelCall :=
  let call := FindOneAndDelete (req_id req) (req_user req) in
  match reply call with
  | Returned None => (txMessage 404 "Transaction not found", [call])
  | Returned (Some _) => (txMessage 200 "Transaction deleted successfully", [call])
  | Thrown _ => (handleServerError, [call])
  end.

(** The routes of [routers/transcationRoutes.js], behind the
    authentication middleware. *)
Inductive Route :=
  | POST_
  | GET_
  | GET_id
  | PUT_id
  | PATCH_id
  | DELETE_id.

Definition router (route : Route) : Req → TxAnswer * list ModelCall :=
  match route with
  | POST_ => createTransaction
  | GET_ => getTransactions
  | GET_id => getTransactionById
  | PUT_id => updateTransaction
  | PATCH_id => partialUpdateTransaction
  | DELETE_id => deleteTransaction
  end.

(** The owner a call of the model is made for: the [user] of the
    document to create, or of the filter. *)
Definition ownerOf (call : ModelCall) : option Value :=
  match call with
  | Create document => document !! "user"
  | Find user | FindOne _ user | FindOneAndUpdate _ user _ | FindOneAndDelete _ user =>
      Some user
  end.

End Transactions.

(** ** A run time and a model to run the transaction controller on

    Strings that are not numbers, arrays and objects convert to NaN, a
    date is made from a number only, [trim] strips blanks, and the model
    stores what it is given under the [_id] [tx1]. *)
Module DemoTx.

Fixpoint dropBlanks (s : string) : string :=
  match s with
  | String " " rest => dropBlanks rest
  | _ => s
  end.

Definition strip (s : string) : string :=
  String.rev (dropBlanks (String.rev (dropBlanks s))).

Definition runtime : Runtime :=
  {| JsObject := string;
     stringToNumber := λ _, nan;
     objectToNumber := λ _, nan;
     dateTime := λ value, match value with VNumber n => n | _ => nan end;
     stringTrim := strip |}.

Definition model : TransactionModel (runtime := runtime) :=
  {| reply := λ call,
       match call with
       | Create document =>
           Returned (Some (<["_id" := VObject ("tx1" : @JsObject runtime)]> document))
       | FindOneAndUpdate _ _ update =>
           Returned (Some (<["_id" := VObject ("tx1" : @JsObject runtime)]> update))
       | _ => Returned None
       end;
     found := λ _, Returned [] |}.

(** A body that tries to set the owner and carries a number as note. *)
Definition coffee : gmap string (JsValue (@JsObject runtime)) :=
  {[ "name" := VString " Coffee "; "amount" := VNumber 3.5;
     "user" := VString "mallory"; "note" := VNumber 7 ]}.

Definition alice : JsValue (@JsObject runtime) := VObject ("alice" : @JsObject runtime).

Definition request (body : gmap string (JsValue (@JsObject runtime)))
    : Req (runtime := runtime) :=
  {| req_user := alice; req_id := VString "tx1"; req_body := Some body |}.

End DemoTx.

(** ** A host without a signing secret

    The demonstration host with [JWT_SECRET] unset. *)
Module Unconfigured.

Definition environment : ProcessEnv :=
  {| JWT_SECRET := None; JWT_ACCESS_EXPIRES_IN := None;
     JWT_REFRESH_DAYS := nan; JWT_REFRESH_MAX_TOKENS := nan |}.

Definition host : Host :=
  {| sha256Hex := Demo.digest;
     sha256Hex_length := λ s, eq_refl;
     jwtSign := jwtSign (Host := Demo.host);
     hashPassword := hashPassword (Host := Demo.host);
     comparePassword := comparePassword (Host := Demo.host);
     trim := trim (Host := Demo.host);
     clock := clock (Host := Demo.host);
     entropy := entropy (Host := Demo.host);
     process_env := environment |}.

End Unconfigured.

(** ** A host whose access-token lifetime is not a time span

    The demonstration host with [JWT_ACCESS_EXPIRES_IN=abc], which its
    [jwtSign] turns down. *)
Module BadLifetime.

Definition environment : ProcessEnv :=
  {| JWT_SECRET := Some "s3cret"; JWT_ACCESS_EXPIRES_IN := Some "abc";
     JWT_REFRESH_DAYS := nan; JWT_REFRESH_MAX_TOKENS := nan |}.

Definition host : Host :=
  {| sha256Hex := Demo.digest;
     sha256Hex_length := λ s, eq_refl;
     jwtSign := jwtSign (Host := Demo.host);
     hashPassword := hashPassword (Host := Demo.host);
     comparePassword := comparePassword (Host := Demo.host);
     trim := trim (Host := Demo.host);
     clock := clock (Host := Demo.host);
     entropy := entropy (Host := Demo.host);
     process_env := environment |}.

End BadLifetime.

(** ** Hosts with other lifetimes of refresh tokens

    The demonstration host with [JWT_REFRESH_DAYS] set to [days]. *)
Module Lifetimes.

Definition environment (days : float) : ProcessEnv :=
  {| JWT_SECRET := Some "s3cret"; JWT_ACCESS_EXPIRES_IN := None;
     JWT_REFRESH_DAYS := days; JWT_REFRESH_MAX_TOKENS := nan |}.

Definition host (days : float) : Host :=
  {| sha256Hex := Demo.digest;
     sha256Hex_length := λ s, eq_refl;
     jwtSign := jwtSign (Host := Demo.host);
     hashPassword := hashPassword (Host := Demo.host);
     comparePassword := comparePassword (Host := Demo.host);
     trim := trim (Host := Demo.host);
     clock := clock (Host := Demo.host);
     entropy := entropy (Host := Demo.host);
     process_env := environment days |}.

End Lifetimes.

(** * Properties *)

(** ** Lists: what [Array.prototype.filter] keeps *)

Section Filter.
Context {A : Type} (P : A → Prop) `{!∀ x, Decision (P x)}.

(** Every selection of elements of [l] that satisfy [P], taken in the
    order of [l], is found again in [filter P l]. *)
Lemma filter_sublist_greatest (k l : list A) :
  k `sublist_of` l → Forall P k → k `sublist_of` filter P l.
Proof.
  induction 1 as [|x k l Hkl IH|x k l Hkl IH]; intros HP.
  - constructor.
  - apply Forall_cons in HP as [Hx Hk].
    rewrite filter_cons_True by done. constructor. by apply IH.
  - rewrite filter_cons. case_decide; [constructor|]; by apply IH.
Qed.

Lemma length_filter_eq_iff (l : list A) :
  length (filter P l) = length l ↔ Forall P l.
Proof.
  split.
  - intros Hlen. apply Forall_forall. intros x Hx.
    destruct (decide (P x)) as [|Hn]; [done|].
    pose proof (length_filter_lt P l x Hx Hn). lia.
  - intros HP. induction HP as [|x l Hx HP IH]; [done|].
    rewrite filter_cons_True by done. cbn. by rewrite IH.
Qed.

Lemma filter_all (l : list A) : Forall P l → filter P l = l.
Proof.
  induction 1 as [|x l Hx HP IH]; [done|].
  rewrite filter_cons_True by done. by rewrite IH.
Qed.

End Filter.

(** ** Numbers *)

Lemma Qfloor_unique (x : Q) (z : Z) :
  (inject_Z z <= x)%Q → (x < inject_Z (z + 1))%Q → Qfloor x = z.
Proof.
  intros Hle Hlt.
  pose proof (Qfloor_le x) as Hfloor. pose proof (Qlt_floor x) as Hnext.
  assert (z < Qfloor x + 1).
  { rewrite Zlt_Qlt. eapply Qle_lt_trans; [exact Hle|exact Hnext]. }
  assert (Qfloor x < z + 1).
  { rewrite Zlt_Qlt. eapply Qle_lt_trans; [exact Hfloor|exact Hlt]. }
  lia.
Qed.

Lemma Qfloor_minus (n : Z) (x : Q) : Qfloor (inject_Z n - x) = n - Qceiling x.
Proof.
  unfold Qceiling.
  pose proof (Qfloor_le (- x)) as Hfloor. pose proof (Qlt_floor (- x)) as Hnext.
  apply Qfloor_unique.
  - replace (n - - Qfloor (- x)) with (n + Qfloor (- x)) by lia.
    rewrite inject_Z_plus. lra.
  - replace (n - - Qfloor (- x) + 1) with (n + (Qfloor (- x) + 1)) by lia.
    rewrite inject_Z_plus. lra.
Qed.

Lemma ToIntegerOrInfinity_floor (x : Q) : (0 <= x)%Q → ToIntegerOrInfinity x = Qfloor x.
Proof.
  destruct x as [n d]. unfold Qle, ToIntegerOrInfinity, Qfloor. cbn.
  intros Hn. apply Z.quot_div_nonneg; lia.
Qed.

(** Cutting off the fraction of a number above the whole number [n]
    leaves a whole number that is at least [n], and above [n] when the
    number is at least [n + 1]. *)
Lemma ToIntegerOrInfinity_above (n : Z) (x : Q) :
  (inject_Z n < x)%Q →
  n ≤ ToIntegerOrInfinity x
  ∧ ((inject_Z (n + 1) <= x)%Q → n < ToIntegerOrInfinity x).
Proof.
  intros Hlt. destruct x as [a d]. unfold ToIntegerOrInfinity. cbn.
  unfold Qlt, Qle in *. cbn in *.
  assert (n * Z.pos d < a) as Ha by lia. clear Hlt.
  destruct (decide (0 ≤ a)) as [Hpos|Hneg].
  - rewrite Z.quot_div_nonneg by lia. split.
    + apply Z.div_le_lower_bound; lia.
    + intros Hnext. assert (n + 1 ≤ a / Z.pos d); [|lia].
      apply Z.div_le_lower_bound; lia.
  - assert (a ÷ Z.pos d = - (- a / Z.pos d)) as ->.
    { rewrite <- (Z.opp_involutive a) at 1. rewrite Z.quot_opp_l by lia.
      rewrite Z.quot_div_nonneg by lia. done. }
    assert (- a / Z.pos d ≤ - n - 1 + 1) as Hup.
    { apply Z.lt_succ_r. apply Z.div_lt_upper_bound; lia. }
    split; [lia|]. intros Hnext.
    assert (- a / Z.pos d < - n).
    { apply Z.div_lt_upper_bound; lia. }
    lia.
Qed.

(** A double that is finite and above zero is a positive rational
    number. *)
Lemma is_finite_shape (parsed : float) :
  is_finite parsed = true → ∀ sign, Prim2SF parsed ≠ S754_infinity sign.
Proof.
  unfold is_finite, Prim2SF. intros Hfinite sign.
  destruct (is_nan parsed); [discriminate|].
  destruct (is_zero parsed); [discriminate|].
  destruct (is_infinity parsed); [discriminate|].
  destruct (Z.frexp parsed) as [fraction exponent].
  destruct (shr_fexp _ _ _ _ _) as [shifted exponent'].
  destruct (shr_m shifted); discriminate.
Qed.

Lemma valueOf_positive (parsed : float) :
  is_finite parsed = true → (0 <? parsed)%float = true → (0 < valueOf parsed)%Q.
Proof.
  intros Hfinite Hpositive.
  rewrite ltb_spec in Hpositive.
  change (Prim2SF 0) with (S754_zero false) in Hpositive.
  unfold valueOf.
  pose proof (is_finite_shape parsed Hfinite) as Hshape.
  destruct (Prim2SF parsed) as [sign| sign| |sign mantissa exponent];
    try discriminate.
  - by destruct (Hshape sign).
  - destruct sign; [discriminate|].
    rewrite Qred_correct.
    apply Qmult_lt_0_compat; [reflexivity|].
    apply Qpower_0_lt. reflexivity.
Qed.

(** ** The refresh-token collection *)

Section Store.
Context {host : Host}.

(** The functions that read [Date.now()], as equations. *)
Lemma pruneExpiredTokens_run (user : User) (w : World) :
  pruneExpiredTokens user w = (Returned (set_refreshTokens user (live user w)), tick w).
Proof. reflexivity. Qed.

Lemma attachRefreshToken_run (user : User) (value : string) (w : World) :
  attachRefreshToken user value w =
    (Returned (set_refreshTokens user
       (refreshTokens user ++ [entryOf value (clock (ticks w))])),
     tick w).
Proof. reflexivity. Qed.

Lemma parsePositiveNumber_pos (parsed fallback : float) :
  (0 < valueOf fallback)%Q → (0 < valueOf (parsePositiveNumber parsed fallback))%Q.
Proof.
  intros Hfallback. unfold parsePositiveNumber.
  destruct (is_finite parsed) eqn:Hfinite; [|done].
  destruct (0 <? parsed)%float eqn:Hpositive; [|done].
  by apply valueOf_positive.
Qed.

Lemma limit_pos : (0 < limit)%Q.
Proof. by apply parsePositiveNumber_pos. Qed.

(** Every finite number above zero can be configured as the limit. *)
Lemma MAX_REFRESH_TOKENS_any (e : ProcessEnv) (maxSize : float) :
  is_finite maxSize = true → (0 <? maxSize)%float = true →
  JWT_REFRESH_MAX_TOKENS e = maxSize →
  MAX_REFRESH_TOKENS e = maxSize.
Proof.
  intros Hfinite Hpositive Hvar.
  unfold MAX_REFRESH_TOKENS, parsePositiveNumber.
  by rewrite Hvar, Hfinite, Hpositive.
Qed.

Lemma capacity_pos : 0 < capacity.
Proof.
  unfold capacity. pose proof limit_pos as Hpos.
  pose proof (Qle_ceiling limit) as Hceiling.
  rewrite Zlt_Qlt. change (inject_Z 0) with 0%Q. lra.
Qed.

(** A whole limit is its own capacity. *)
Lemma capacity_whole (n : Z) :
  (limit == inject_Z n)%Q → capacity = n.
Proof.
  intros Hwhole. unfold capacity. rewrite Hwhole. apply Qceiling_Z.
Qed.

Lemma enforceTokenLimit_within (user : User) :
  (length_ user <= limit)%Q →
  enforceTokenLimit user = user.
Proof.
  intros Hle. unfold enforceTokenLimit. cbv zeta. fold limit.
  by rewrite (proj2 (Qle_bool_iff _ _) Hle).
Qed.

Lemma enforceTokenLimit_over (user : User) :
  (limit < length_ user)%Q →
  enforceTokenLimit user =
    set_refreshTokens user
      (drop (length (refreshTokens user) - Z.to_nat capacity) (refreshTokens user)).
Proof.
  intros Hlt. unfold enforceTokenLimit. cbv zeta. fold limit.
  destruct (Qle_bool _ _) eqn:Hle; [apply Qle_bool_iff in Hle; lra|].
  unfold splice. rewrite take_0. cbn [app]. do 2 f_equal.
  rewrite ToIntegerOrInfinity_floor by lra.
  unfold length_. rewrite Qfloor_minus. fold capacity.
  pose proof capacity_pos. lia.
Qed.

(** In both cases what stays is the end of the collection, as long as
    the capacity. *)
Lemma enforceTokenLimit_drop (user : User) :
  refreshTokens (enforceTokenLimit user)
  = drop (length (refreshTokens user) - Z.to_nat capacity) (refreshTokens user).
Proof.
  destruct (Qlt_le_dec limit (length_ user)) as [Hlt|Hle].
  - by rewrite enforceTokenLimit_over.
  - rewrite enforceTokenLimit_within by done.
    assert (Z.of_nat (length (refreshTokens user)) ≤ capacity) as Hcap.
    { pose proof (Qle_ceiling limit) as Hceiling.
      unfold capacity. rewrite Zle_Qle. unfold length_ in Hle. lra. }
    replace (length (refreshTokens user) - Z.to_nat capacity)%nat with 0%nat by lia.
    done.
Qed.

Lemma enforceTokenLimit_length (user : User) :
  Z.of_nat (length (refreshTokens (enforceTokenLimit user)))
  = Z.min (Z.of_nat (length (refreshTokens user))) capacity.
Proof.
  rewrite enforceTokenLimit_drop, length_drop. pose proof capacity_pos. lia.
Qed.

End Store.

Section StoreClaims.
Context {host : Host}.

(** C7. [pruneExpiredTokens] drops exactly the entries whose [expiresAt]
    is at or before the time read from the clock and keeps those
    strictly after it: an entry is in the result iff it was in the
    collection and expires after now; the result is a selection of the
    collection in its order; every in-order selection of unexpired
    entries of the collection is found in the result (nothing that
    should stay is dropped, duplicates included); an entry expiring
    exactly now is dropped, and so is one whose [expiresAt] is an
    Invalid Date. The other fields of the user and the stored users
    are untouched. *)
Theorem pruneExpiredTokens_spec (user : User) (w : World) :
  let now := clock (ticks w) in
  ∃ kept : list RefreshTokenEntry,
    pruneExpiredTokens user w = (Returned (set_refreshTokens user kept), tick w)
    ∧ (∀ entry, entry ∈ kept ↔
         entry ∈ refreshTokens user ∧ ∃ time, expiresAt entry = Some time ∧ now < time)
    ∧ kept `sublist_of` refreshTokens user
    ∧ (∀ selection, selection `sublist_of` refreshTokens user →
         Forall (λ entry, ∃ time, expiresAt entry = Some time ∧ now < time) selection →
         selection `sublist_of` kept)
    ∧ (∀ entry time, expiresAt entry = Some time → time ≤ now → entry ∉ kept)
    ∧ (∀ entry, expiresAt entry = Some now → entry ∉ kept)
    ∧ (∀ entry, expiresAt entry = None → entry ∉ kept).
Proof.
  intros now.
  assert (∀ entry, laterThan now (expiresAt entry)
                   ↔ ∃ time, expiresAt entry = Some time ∧ now < time) as Hlater.
  { intros entry. destruct (expiresAt entry) as [time|]; cbn.
    - split; [eauto|]. by intros (? & [= <-] & ?).
    - split; [done|]. by intros (? & ? & ?). }
  exists (live user w). split; [apply pruneExpiredTokens_run|].
  unfold live. fold now. split; [|split; [|split; [|split; [|split]]]].
  - intros entry. rewrite list_elem_of_filter, Hlater. tauto.
  - apply sublist_filter.
  - intros selection Hsub Hlive. apply filter_sublist_greatest; [done|].
    eapply Forall_impl; [exact Hlive|]. intros entry. by rewrite Hlater.
  - intros entry time Htime Hle [Hlt _]%list_elem_of_filter.
    rewrite Htime in Hlt. cbn in Hlt. lia.
  - intros entry Htime [Hlt _]%list_elem_of_filter.
    rewrite Htime in Hlt. cbn in Hlt. lia.
  - intros entry Htime [Hlt _]%list_elem_of_filter. by rewrite Htime in Hlt.
Qed.


End StoreClaims.


(** C6, as the spec words it, fails: with the digest of [t1] stored
    twice, [removeRefreshToken] leaves only the session in between,
    where removing the first match would leave the later entry with the
    same digest in place. *)
Lemma removeRefreshToken_removes_every_match :
  let user := Demo.userWith Demo.repeatedDigest in
  let hash := Demo.digest "t1" in
  refreshTokens (removeRefreshToken user hash).1 = [Demo.entryFor "t2" 200]
  ∧ removeFirstMatch hash (refreshTokens user)
      = [Demo.entryFor "t2" 200; Demo.entryFor "t1" 300]
  ∧ refreshTokens (removeRefreshToken user hash).1
      ≠ removeFirstMatch hash (refreshTokens user).
Proof. vm_compute. repeat split; done. Qed.

(** C6, amended. [removeRefreshToken] removes every entry whose stored
    digest equals the hash and nothing else: an entry is in the result
    iff it was in the collection with another digest; the result is a
    selection of the collection in its order, and contains every
    in-order selection of entries with other digests. It returns [true]
    iff some entry matched; when none matches the user is returned
    unchanged with [false]. *)
Theorem removeRefreshToken_spec (user : User) (hashedToken : string) :
  let entries := refreshTokens user in
  let result := removeRefreshToken user hashedToken in
  let kept := refreshTokens result.1 in
  result.1 = set_refreshTokens user kept
  ∧ (∀ entry, entry ∈ kept ↔ entry ∈ entries ∧ token entry ≠ hashedToken)
  ∧ kept `sublist_of` entries
  ∧ (∀ selection, selection `sublist_of` entries →
       Forall (λ entry, token entry ≠ hashedToken) selection →
       selection `sublist_of` kept)
  ∧ (result.2 = true ↔ ∃ entry, entry ∈ entries ∧ token entry = hashedToken)
  ∧ ((∀ entry, entry ∈ entries → token entry ≠ hashedToken) → result = (user, false)).
Proof.
  intros entries result kept. subst result kept. cbn. fold entries.
  split; [done|]. split; [|split; [|split; [|split]]].
  - intros entry. rewrite list_elem_of_filter. tauto.
  - apply sublist_filter.
  - intros selection Hsub Hne. by apply filter_sublist_greatest.
  - rewrite bool_decide_eq_true. split.
    + intros Hlen.
      destruct (decide (Exists (λ entry, token entry = hashedToken) entries))
        as [Hex|Hnex].
      * apply Exists_exists in Hex as (entry & Hin & Heq). eauto.
      * exfalso. apply Hlen. symmetry. apply length_filter_eq_iff.
        apply Forall_forall. intros entry Hin Heq. apply Hnex.
        apply Exists_exists. eauto.
    + intros (entry & Hin & Heq) Hlen. symmetry in Hlen.
      apply length_filter_eq_iff in Hlen.
      rewrite Forall_forall in Hlen. by apply (Hlen entry).
  - intros Hnone. unfold removeRefreshToken. cbn. fold entries.
    assert (filter (λ entry, token entry ≠ hashedToken) entries = entries) as ->.
    { apply filter_all, Forall_forall. exact Hnone. }
    subst entries. destruct user. cbn. f_equal.
    by rewrite bool_decide_eq_false_2 by auto.
Qed.

(** ** Looking documents up *)

Section FindOne.
Context (query : User → Prop) `{!∀ u, Decision (query u)}.

Lemma findOne_Some (collection : gmap ObjectId User) (doc : ObjectId * User) :
  findOne query collection = Some doc →
  collection !! doc.1 = Some doc.2 ∧ query doc.2.
Proof.
  unfold findOne. intros Hfind.
  apply fmap_Some in Hfind as ([n found] & Hfind & ->).
  apply list_find_Some in Hfind as (Hlookup & Hquery & _).
  split; [|done].
  apply elem_of_map_to_list'. by eapply list_elem_of_lookup_2.
Qed.

Lemma findOne_None (collection : gmap ObjectId User) :
  findOne query collection = None ↔
  ∀ i u, collection !! i = Some u → ¬ query u.
Proof.
  unfold findOne. rewrite fmap_None, list_find_None, Forall_forall. split.
  - intros Hnone i u Hlookup. apply (Hnone (i, u)).
    by apply elem_of_map_to_list.
  - intros Hnone [i u] Hin. apply (Hnone i u).
    by apply elem_of_map_to_list.
Qed.

(** When only the document under [i] satisfies the query, it is the one
    found. *)
Lemma findOne_unique (collection : gmap ObjectId User) (i : ObjectId) (u : User) :
  collection !! i = Some u → query u →
  (∀ j v, collection !! j = Some v → query v → j = i) →
  findOne query collection = Some (i, u).
Proof.
  intros Hlookup Hquery Honly.
  destruct (findOne query collection) as [[j v]|] eqn:Hfind.
  - apply findOne_Some in Hfind as [Hj Hv]. cbn in Hj, Hv.
    assert (j = i) as -> by eauto. congruence.
  - exfalso. by eapply findOne_None.
Qed.

End FindOne.

(** ** The handlers, path by path *)

Section Paths.
Context {host : Host}.

Lemma issueTokensForUser_run (doc : ObjectId * User) (w : World) :
  issueTokensForUser doc w =
    if truthy (JWT_SECRET process_env)
    then match issuedTokens doc.1 w with
         | Some tokens => (Returned (reissued doc.2 w, tokens), tick (savedWorld doc w))
         | None => (Thrown "jwt.sign failed", tick (savedWorld doc w))
         end
    else (Thrown "Missing JWT_SECRET in environment variables", savedWorld doc w).
Proof.
  unfold savedWorld.
  assert (reissued doc.2 w =
          set_refreshTokens
            (enforceTokenLimit (set_refreshTokens doc.2 (live doc.2 w)))
            (retained doc.2 w ++ [entryOf (nextRefreshToken w) (clock (S (ticks w)))]))
    as ->.
  { unfold reissued, enforceTokenLimit. by destruct (Qle_bool _ _). }
  unfold issueTokensForUser, signAccessToken, ensureJwtSecret, issuedTokens, signed.
  destruct (truthy (JWT_SECRET process_env)); [|reflexivity].
  unfold mbind at 1, Async_bind at 1. rewrite pruneExpiredTokens_run.
  unfold mbind at 1, Async_bind at 1, generateRefreshTokenValue.
  unfold mbind at 1, Async_bind at 1, randomBytes. cbn [mret Async_ret].
  unfold mbind at 1, Async_bind at 1. rewrite attachRefreshToken_run.
  unfold mbind at 1, Async_bind at 1, save. cbn [fst snd].
  unfold mbind at 1, Async_bind at 1.
  unfold mbind at 1, Async_bind at 1. cbn [mret Async_ret].
  unfold mbind at 1, Async_bind at 1, Date_now.
  cbn [ticks tick draw persist users writes drawn].
  by destruct (jwtSign _ _ _ _).
Qed.

(** Issuing and responding, as the three issuing handlers do it. *)
Lemma issue_run (code : Z) (message : string) (doc : ObjectId * User) (w : World) :
  match issueTokensForUser doc w with
  | (Returned (user, tokens), w') =>
      (respondWithTokens code message (doc.1, user) tokens, w')
  | (Thrown _, w') => (respondMessage 500 "Server error", w')
  end = issue code message doc w.
Proof.
  rewrite issueTokensForUser_run. unfold issue.
  destruct (truthy (JWT_SECRET process_env)); [|done].
  by destruct (issuedTokens doc.1 w).
Qed.

Lemma refreshAccessToken_run (body : Body) (w : World) :
  refreshAccessToken body w =
    if negb (truthyField (body_refreshToken body))
    then (respondMessage 400 "Refresh token is required", w)
    else
      match default FNull (body_refreshToken body) with
      | FString raw =>
          let hashedToken := hashToken raw in
          match findOne (holdsToken hashedToken) (users w) with
          | None => (respondMessage 401 "Invalid refresh token", w)
          | Some doc =>
              let user := (removeRefreshToken doc.2 hashedToken).1 in
              match find (λ entry, token entry = hashedToken) (refreshTokens doc.2) with
              | None =>
                  (respondMessage 401 "Refresh token expired",
                   persist w (<[doc.1 := user]> (users w)))
              | Some stored =>
                  if bool_decide (notLaterThan (clock (ticks w)) (expiresAt stored))
                  then (respondMessage 401 "Refresh token expired",
                        persist (tick w) (<[doc.1 := user]> (users w)))
                  else issue 200 "Token refreshed" (doc.1, user) (tick w)
              end
          end
      | _ => (respondMessage 500 "Server error", w)
      end.
Proof.
  unfold refreshAccessToken, tryCatch.
  destruct (truthyField (body_refreshToken body)); [|reflexivity].
  cbn [negb].
  destruct (default FNull (body_refreshToken body)) as [| | |raw|]; try reflexivity.
  cbv zeta. unfold mbind at 1, Async_bind at 1, hashTokenOf. cbn [mret Async_ret].
  unfold mbind at 1, Async_bind at 1, User_findOne.
  destruct (findOne _ (users w)) as [doc|]; [|reflexivity].
  unfold mbind at 1, Async_bind at 1.
  destruct (find _ (refreshTokens doc.2)) as [stored|]; [|reflexivity].
  unfold mbind at 1, Async_bind at 1, Date_now. cbn [mret Async_ret].
  case_bool_decide; [reflexivity|].
  unfold mbind at 1, Async_bind at 1.
  rewrite <- issue_run.
  by destruct (issueTokensForUser _ _) as [[[user tokens]|error] w'].
Qed.

Lemma refreshAccessToken_no_match (body : Body) (w : World) (raw : string) :
  body_refreshToken body = Some (FString raw) → raw ≠ "" →
  findOne (holdsToken (hashToken raw)) (users w) = None →
  refreshAccessToken body w = (respondMessage 401 "Invalid refresh token", w).
Proof.
  intros Hbody Hraw Hnone. rewrite refreshAccessToken_run, Hbody.
  assert (truthyField (Some (FString raw)) = true) as ->.
  { cbn. apply negb_true_iff. by apply String.eqb_neq. }
  cbn [negb from_option id]. cbv zeta. by rewrite Hnone.
Qed.

Lemma logout_run (body : Body) (w : World) :
  logout body w =
    if negb (truthyField (body_refreshToken body))
    then (respondMessage 400 "Refresh token is required", w)
    else
      match default FNull (body_refreshToken body) with
      | FString raw =>
          let hashedToken := hashToken raw in
          (respondMessage 200 "Logged out successfully",
           match findOne (holdsToken hashedToken) (users w) with
           | Some doc =>
               if (removeRefreshToken doc.2 hashedToken).2
               then persist w (<[doc.1 := (removeRefreshToken doc.2 hashedToken).1]> (users w))
               else w
           | None => w
           end)
      | _ => (respondMessage 500 "Server error", w)
      end.
Proof.
  unfold logout, tryCatch.
  destruct (truthyField (body_refreshToken body)); [|reflexivity].
  cbn [negb].
  destruct (default FNull (body_refreshToken body)) as [| | |raw|]; try reflexivity.
  cbv zeta. unfold mbind at 1, Async_bind at 1, hashTokenOf. cbn [mret Async_ret].
  unfold mbind at 1, Async_bind at 1, User_findOne.
  destruct (findOne _ (users w)) as [doc|]; [|reflexivity].
  unfold mbind at 1, Async_bind at 1.
  destruct (removeRefreshToken doc.2 _) as [user []]; reflexivity.
Qed.

Lemma login_run (body : Body) (w : World) :
  login body w =
    if negb (truthy (body_email body)) || negb (truthy (body_password body))
    then (respondMessage 400 "Email and password are required", w)
    else
      match findOne (λ u, email u = default "" (body_email body)) (users w) with
      | None => (respondMessage 401 "Invalid credentials", w)
      | Some doc =>
          if negb (comparePassword doc.2 (default "" (body_password body)))
          then (respondMessage 401 "Invalid credentials", w)
          else issue 200 "Login successful" doc w
      end.
Proof.
  unfold login, tryCatch.
  destruct (negb (truthy (body_email body)) || negb (truthy (body_password body)));
    [reflexivity|].
  cbv zeta. unfold mbind at 1, Async_bind at 1, User_findOne.
  destruct (findOne _ (users w)) as [doc|]; [|reflexivity].
  destruct (negb (comparePassword doc.2 _)); [reflexivity|].
  unfold mbind at 1, Async_bind at 1.
  rewrite <- issue_run.
  by destruct (issueTokensForUser _ _) as [[[user tokens]|error] w'].
Qed.

Lemma signup_run (body : Body) (w : World) :
  signup body w =
    if negb (truthyField (body_name body)) || negb (truthy (body_email body))
       || negb (truthy (body_password body))
    then (respondMessage 400 "Name, email and password are required", w)
    else
      match findOne (λ u, email u = default "" (body_email body)) (users w) with
      | Some _ => (respondMessage 409 "Email already in use", w)
      | None =>
          match default FNull (body_name body) with
          | FString name =>
              let _id := fresh (dom (users w)) in
              let user := created (trim name)
                                  (default "" (body_email body))
                                  (default "" (body_password body)) in
              let inserted := persist w (<[_id := user]> (users w)) in
              issue 201 "User created successfully" (_id, user) inserted
          | _ => (respondMessage 500 "Server error", w)
          end
      end.
Proof.
  unfold signup, tryCatch.
  destruct (negb (truthyField (body_name body)) || negb (truthy (body_email body))
            || negb (truthy (body_password body))); [reflexivity|].
  cbv zeta. unfold mbind at 1, Async_bind at 1, User_findOne.
  destruct (findOne _ (users w)) as [doc|]; [reflexivity|].
  destruct (default FNull (body_name body)) as [| | |name|]; try reflexivity.
  unfold mbind at 1, Async_bind at 1, callTrim. cbn [mret Async_ret].
  unfold mbind at 1, Async_bind at 1, User_create. cbv zeta.
  unfold mbind at 1, Async_bind at 1.
  rewrite <- issue_run.
  by destruct (issueTokensForUser _ _) as [[[user tokens]|error] w'].
Qed.

(** What [issue] always does, whether or not signing succeeds. *)
Lemma issue_users (code : Z) (message : string) (doc : ObjectId * User) (w : World) :
  users (issue code message doc w).2 = <[doc.1 := reissued doc.2 w]> (users w).
Proof. unfold issue. by destruct (truthy (JWT_SECRET process_env)). Qed.

Lemma issue_status (code : Z) (message : string) (doc : ObjectId * User) (w : World) :
  (issue code message doc w).1 = respondMessage 500 "Server error"
  ∨ ∃ tokens, issuedTokens doc.1 w = Some tokens
              ∧ issue code message doc w
                = (respondWithTokens code message (doc.1, reissued doc.2 w) tokens,
                   tick (savedWorld doc w)).
Proof.
  unfold issue. destruct (truthy (JWT_SECRET process_env)); [|by left].
  destruct (issuedTokens doc.1 w) as [tokens|]; [right; by exists tokens|by left].
Qed.

Lemma issue_signs (code : Z) (message : string) (doc : ObjectId * User) (w : World) :
  signs doc.1 →
  ∃ tokens, issuedTokens doc.1 w = Some tokens
            ∧ refreshToken tokens = nextRefreshToken w
            ∧ signed doc.1 (clock (S (S (ticks w)))) = Some (accessToken tokens)
            ∧ issue code message doc w
              = (respondWithTokens code message (doc.1, reissued doc.2 w) tokens,
                 tick (savedWorld doc w)).
Proof.
  intros [Hsecret Hsigns]. unfold issue, issuedTokens. rewrite Hsecret.
  destruct (Hsigns (clock (S (S (ticks w))))) as [accessToken ->].
  by eexists.
Qed.

Lemma issue_without_secret (code : Z) (message : string) (doc : ObjectId * User)
    (w : World) :
  truthy (JWT_SECRET process_env) = false →
  issue code message doc w = (respondMessage 500 "Server error", savedWorld doc w).
Proof. intros Hsecret. unfold issue. by rewrite Hsecret. Qed.

End Paths.

(** ** Who holds a digest *)

Lemma holdsToken_iff (hash : string) (user : User) :
  holdsToken hash user ↔ ∃ entry, entry ∈ refreshTokens user ∧ token entry = hash.
Proof. unfold holdsToken. by rewrite Exists_exists. Qed.

Lemma removeRefreshToken_unholds (user : User) (hash : string) :
  ¬ holdsToken hash (removeRefreshToken user hash).1.
Proof.
  rewrite holdsToken_iff. intros (entry & Hin & Heq). cbn in Hin.
  apply list_elem_of_filter in Hin as [Hne _]. done.
Qed.

Lemma unheld_iff `{Host} (raw : string) (collection : gmap ObjectId User) :
  (∀ i user entry, collection !! i = Some user → entry ∈ refreshTokens user →
     token entry ≠ hashToken raw)
  ↔ findOne (holdsToken (hashToken raw)) collection = None.
Proof.
  rewrite findOne_None. split.
  - intros Hnone i u Hlookup (entry & Hin & Heq)%holdsToken_iff.
    by eapply Hnone.
  - intros Hnone i u entry Hlookup Hin Heq. apply (Hnone i u Hlookup).
    apply holdsToken_iff. eauto.
Qed.

Lemma truthy_Some (s : string) : s ≠ "" → truthy (Some s) = true.
Proof.
  intros Hne. cbn. apply negb_true_iff. by apply String.eqb_neq.
Qed.

Lemma truthyField_Some (s : string) : s ≠ "" → truthyField (Some (FString s)) = true.
Proof.
  intros Hne. cbn. apply negb_true_iff. by apply String.eqb_neq.
Qed.

Section RefreshFailures.
Context {host : Host}.

(** C4, amended. When no stored entry of any user carries the digest of
    the submitted refresh token, [refreshAccessToken] leaves the world
    as it is (no collection is touched, nothing is saved) and answers
    401 with the message "Invalid refresh token". *)
Theorem refreshAccessToken_unknown (body : Body) (w : World) (raw : string) :
  body_refreshToken body = Some (FString raw) → raw ≠ "" →
  (∀ i user entry, users w !! i = Some user → entry ∈ refreshTokens user →
     token entry ≠ hashToken raw) →
  refreshAccessToken body w = (respondMessage 401 "Invalid refresh token", w).
Proof.
  intros Hbody Hraw Hnone. apply refreshAccessToken_no_match with raw; [done..|].
  by apply unheld_iff.
Qed.

(** C3, amended. When the look-up of the submitted token's digest (the
    first user holding it, and that user's first entry with it) yields
    an entry whose [expiresAt] is a time at or before the time read
    from the clock, [refreshAccessToken] saves that user without the
    entry (and without any other entry carrying the same digest,
    keeping all the others), leaves every other user as stored, and
    answers 401 with the message "Refresh token expired". *)
Theorem refreshAccessToken_expired (body : Body) (w : World) (raw : string)
    (doc : ObjectId * User) (stored : RefreshTokenEntry) (time : Z) :
  body_refreshToken body = Some (FString raw) → raw ≠ "" →
  findOne (holdsToken (hashToken raw)) (users w) = Some doc →
  find (λ entry, token entry = hashToken raw) (refreshTokens doc.2) = Some stored →
  expiresAt stored = Some time → time ≤ clock (ticks w) →
  ∃ (cleaned : User) (w' : World),
    refreshAccessToken body w = (respondMessage 401 "Refresh token expired", w')
    ∧ users w' = <[doc.1 := cleaned]> (users w)
    ∧ cleaned = set_refreshTokens doc.2 (refreshTokens cleaned)
    ∧ stored ∈ refreshTokens doc.2
    ∧ (stored ∉ refreshTokens cleaned)
    ∧ (∀ entry, entry ∈ refreshTokens cleaned ↔
                entry ∈ refreshTokens doc.2 ∧ token entry ≠ hashToken raw)
    ∧ refreshTokens cleaned `sublist_of` refreshTokens doc.2
    ∧ (∀ j, j ≠ doc.1 → users w' !! j = users w !! j).
Proof.
  intros Hbody Hraw Hfound Hstored Htime Hexpired.
  exists (removeRefreshToken doc.2 (hashToken raw)).1. eexists.
  split.
  { rewrite refreshAccessToken_run, Hbody.
    rewrite truthyField_Some by done. cbn [negb from_option id]. cbv zeta.
    rewrite Hfound, Hstored. rewrite bool_decide_eq_true_2; [done|].
    by rewrite Htime. }
  unfold find in Hstored.
  apply fmap_Some in Hstored as ([n e] & Hstored & ->).
  apply list_find_Some in Hstored as (Hlookup & Hmatch & _). cbn in Hmatch |- *.
  split; [done|]. split; [done|].
  split; [by eapply list_elem_of_lookup_2|].
  split; [by intros [? _]%list_elem_of_filter|].
  split; [intros entry; rewrite list_elem_of_filter; tauto|].
  split; [apply sublist_filter|].
  intros j Hj. by rewrite lookup_insert_ne.
Qed.

End RefreshFailures.

(** ** What issuance keeps and adds *)

Section Issuance.
Context {host : Host}.

Lemma enforceTokenLimit_sublist (user : User) :
  refreshTokens (enforceTokenLimit user) `sublist_of` refreshTokens user.
Proof. rewrite enforceTokenLimit_drop. apply sublist_drop. Qed.

Lemma retained_drop (user : User) (w : World) :
  retained user w
  = drop (length (live user w) - Z.to_nat capacity) (live user w).
Proof. unfold retained. by rewrite enforceTokenLimit_drop. Qed.

Lemma retained_sublist (user : User) (w : World) :
  retained user w `sublist_of` refreshTokens user.
Proof.
  unfold retained. etrans; [apply enforceTokenLimit_sublist|]. apply sublist_filter.
Qed.

Lemma retained_length (user : User) (w : World) :
  Z.of_nat (length (retained user w)) ≤ capacity.
Proof. unfold retained. rewrite enforceTokenLimit_length. cbn. lia. Qed.

Lemma retained_all (user : User) (w : World) :
  Z.of_nat (length (refreshTokens user)) ≤ capacity →
  Forall (λ entry, laterThan (clock (ticks w)) (expiresAt entry)) (refreshTokens user) →
  retained user w = refreshTokens user.
Proof.
  intros Hlen Hlive. rewrite retained_drop. unfold live. rewrite filter_all by done.
  replace (length (refreshTokens user) - Z.to_nat capacity)%nat with 0%nat by lia.
  done.
Qed.

Lemma elem_of_reissued (user : User) (w : World) (entry : RefreshTokenEntry) :
  entry ∈ refreshTokens (reissued user w) →
  entry ∈ refreshTokens user
  ∨ entry = entryOf (nextRefreshToken w) (clock (S (ticks w))).
Proof.
  cbn. rewrite elem_of_app, list_elem_of_singleton. intros [Hin|Heq]; [left|by right].
  eapply elem_of_sublist; [exact Hin|]. apply retained_sublist.
Qed.

Lemma nextRefreshToken_tick (w : World) : nextRefreshToken (tick w) = nextRefreshToken w.
Proof. reflexivity. Qed.

(** A user who did not hold [hash] does not hold it after a token with
    another digest was issued. *)
Lemma reissued_unholds (user : User) (w : World) (hash : string) :
  ¬ holdsToken hash user →
  hashToken (nextRefreshToken w) ≠ hash →
  ¬ holdsToken hash (reissued user w).
Proof.
  intros Hnot Hfresh (entry & Hin & Heq)%holdsToken_iff.
  apply elem_of_reissued in Hin as [Hin| ->].
  - apply Hnot, holdsToken_iff. eauto.
  - done.
Qed.

End Issuance.

Lemma removeRefreshToken_flag (user : User) (hash : string) :
  (removeRefreshToken user hash).2 = true ↔ holdsToken hash user.
Proof.
  cbn. rewrite bool_decide_eq_true, holdsToken_iff. split.
  - intros Hlen.
    destruct (decide (Exists (λ entry, token entry = hash) (refreshTokens user)))
      as [Hex|Hnex].
    + by apply Exists_exists in Hex.
    + exfalso. apply Hlen. symmetry. apply length_filter_eq_iff.
      apply Forall_forall. intros entry Hin Heq. apply Hnex.
      apply Exists_exists. eauto.
  - intros (entry & Hin & Heq) Hlen. symmetry in Hlen.
    apply length_filter_eq_iff in Hlen.
    rewrite Forall_forall in Hlen. by apply (Hlen entry).
Qed.


(** ** Rotation and logout *)

Section Rotation.
Context {host : Host}.

(** C2, amended. Let the submitted token [raw] be a string that is not
    empty, let the look-up of its digest yield an entry that expires
    after the time read from the clock, let no other user store that
    digest, let the token drawn next have another digest, and let
    signing succeed (the secret is set and [jwt.sign] accepts the
    lifetime). Then [refreshAccessToken] answers 200 with a new access
    token and the newly drawn refresh token; it saves the user without
    the matched entry and with the new token's entry appended; no
    stored entry of any user carries the digest of [raw] any more; and
    submitting [raw] again, in any world with these users, is answered
    401 "Invalid refresh token" and changes nothing. *)
Theorem refreshAccessToken_rotates (body : Body) (w : World) (raw : string)
    (doc : ObjectId * User) (stored : RefreshTokenEntry) (time : Z) :
  body_refreshToken body = Some (FString raw) → raw ≠ "" →
  findOne (holdsToken (hashToken raw)) (users w) = Some doc →
  find (λ entry, token entry = hashToken raw) (refreshTokens doc.2) = Some stored →
  expiresAt stored = Some time → clock (ticks w) < time →
  heldByOneUser (hashToken raw) (users w) →
  hashToken (nextRefreshToken w) ≠ hashToken raw →
  signs doc.1 →
  ∃ (res : Response) (w' : World) (rotated : User) (accessToken : string),
    refreshAccessToken body w = (res, w')
    ∧ statusCode res = 200
    ∧ field "refreshToken" (json res) = Some (JString (nextRefreshToken w))
    ∧ field "accessToken" (json res) = Some (JString accessToken)
    ∧ signed doc.1 (clock (S (S (S (ticks w))))) = Some accessToken
    ∧ users w' = <[doc.1 := rotated]> (users w)
    ∧ (∃ kept,
         refreshTokens rotated =
           (kept ++ [{| token := hashToken (nextRefreshToken w);
                        expiresAt := expiry (clock (S (S (ticks w)))) |}])%list
         ∧ kept `sublist_of` refreshTokens doc.2)
    ∧ stored ∈ refreshTokens doc.2
    ∧ (stored ∉ refreshTokens rotated)
    ∧ (∀ i user entry, users w' !! i = Some user → entry ∈ refreshTokens user →
         token entry ≠ hashToken raw)
    ∧ (∀ later, users later = users w' →
         refreshAccessToken body later = (respondMessage 401 "Invalid refresh token", later)).
Proof.
  intros Hbody Hraw Hfound Hstored Htime Hlive Hone Hfresh Hsigns.
  set (hash := hashToken raw) in *.
  set (cleaned := (removeRefreshToken doc.2 hash).1).
  pose proof (findOne_Some _ _ _ Hfound) as [Hdoc Hholds].
  assert (¬ holdsToken hash (reissued cleaned (tick w))) as Hgone.
  { apply reissued_unholds; [apply removeRefreshToken_unholds|done]. }
  assert (∀ i user entry,
            <[doc.1 := reissued cleaned (tick w)]> (users w) !! i = Some user →
            entry ∈ refreshTokens user → token entry ≠ hash) as Hnone.
  { intros i user entry Hlookup Hin Heq.
    destruct (decide (i = doc.1)) as [->|Hne].
    - rewrite lookup_insert_eq in Hlookup. injection Hlookup as <-.
      apply Hgone, holdsToken_iff. eauto.
    - rewrite lookup_insert_ne in Hlookup by done.
      apply Hne. eapply Hone; [exact Hlookup|exact Hdoc| |exact Hholds].
      apply holdsToken_iff. eauto. }
  destruct (issue_signs 200 "Token refreshed" (doc.1, cleaned) (tick w) Hsigns)
    as (tokens & Htokens & Hrefresh & Haccess & Hissue).
  exists (respondWithTokens 200 "Token refreshed"
            (doc.1, reissued cleaned (tick w)) tokens),
         (tick (savedWorld (doc.1, cleaned) (tick w))),
         (reissued cleaned (tick w)), (accessToken tokens).
  split.
  { rewrite refreshAccessToken_run, Hbody.
    rewrite truthyField_Some by done. cbn [negb from_option id]. cbv zeta.
    fold hash. rewrite Hfound, Hstored, Htime.
    rewrite bool_decide_eq_false_2 by (cbn; lia). exact Hissue. }
  split; [done|]. split; [cbn; by rewrite Hrefresh|]. split; [done|].
  split; [exact Haccess|]. split; [done|].
  unfold find in Hstored.
  apply fmap_Some in Hstored as ([n e] & Hstored & ->).
  apply list_find_Some in Hstored as (Hlookup & Hmatch & _). cbn in Hmatch.
  assert (e ∈ refreshTokens doc.2) as Hin by by eapply list_elem_of_lookup_2.
  split.
  { exists (retained cleaned (tick w)).
    split; [done|]. etrans; [apply retained_sublist|]. apply sublist_filter. }
  split; [done|]. split.
  { intros Hstill. apply Hgone, holdsToken_iff. eauto. }
  split; [exact Hnone|].
  intros later Husers. apply refreshAccessToken_no_match with raw; [done..|].
  apply unheld_iff. rewrite Husers. exact Hnone.
Qed.

(** The first call of [logout] with a string, and what it leaves when
    at most one user holds the digest. *)
Lemma logout_string (body : Body) (w : World) (raw : string) :
  body_refreshToken body = Some (FString raw) → raw ≠ "" →
  logout body w =
    (respondMessage 200 "Logged out successfully",
     match findOne (holdsToken (hashToken raw)) (users w) with
     | Some doc =>
         if (removeRefreshToken doc.2 (hashToken raw)).2
         then persist w (<[doc.1 := (removeRefreshToken doc.2 (hashToken raw)).1]> (users w))
         else w
     | None => w
     end).
Proof.
  intros Hbody Hraw. rewrite logout_run, Hbody.
  rewrite truthyField_Some by done. reflexivity.
Qed.


End Rotation.

(** ** Raw tokens and digests *)

Lemma length_toStringHex (buffer : list byte) :
  String.length (toStringHex buffer) = (2 * length buffer)%nat.
Proof. induction buffer as [|b rest IH]; cbn; [done|]. rewrite IH. lia. Qed.

Section Issued.
Context {host : Host}.

Lemma length_nextRefreshToken (w : World) : String.length (nextRefreshToken w) = 80%nat.
Proof.
  unfold nextRefreshToken. by rewrite length_toStringHex, length_fmap, length_seq.
Qed.

Lemma digest_differs (raw : string) :
  String.length raw = 80%nat → sha256Hex raw ≠ raw.
Proof.
  intros Hlen Heq. pose proof (sha256Hex_length raw) as Hdigest.
  rewrite Heq in Hdigest. lia.
Qed.

(** C9. The raw refresh token the issuer draws is the hexadecimal form
    of 40 bytes of entropy, 80 characters. [issueTokensForUser] hands
    that raw value to the caller, when it returns, and in every case
    saves the user with one new entry, appended after the entries it
    kept, whose [token] is the SHA-256 digest of that raw value and of
    no other string: 64 characters, so never the raw value itself. No
    entry equal to the raw value is added (one that is there was there
    before), and where the entries stored before are digests, no stored
    entry equals the raw value. *)
Theorem refresh_token_stored_as_digest (doc : ObjectId * User) (w : World) :
  let raw := nextRefreshToken w in
  let issued := issueTokensForUser doc w in
  raw = toStringHex (entropy <$> seq (drawn w) 40)
  ∧ String.length raw = 80%nat
  ∧ generateRefreshTokenValue w = (Returned raw, draw 40 w)
  ∧ (∀ user tokens, issued.1 = Returned (user, tokens) → refreshToken tokens = raw)
  ∧ ∃ (saved : User) (kept : list RefreshTokenEntry),
      users issued.2 !! doc.1 = Some saved
      ∧ refreshTokens saved =
          (kept ++ [{| token := sha256Hex raw;
                       expiresAt := expiry (clock (S (ticks w))) |}])%list
      ∧ kept `sublist_of` refreshTokens doc.2
      ∧ String.length (sha256Hex raw) = 64%nat
      ∧ sha256Hex raw ≠ raw
      ∧ (∀ entry, entry ∈ refreshTokens saved → token entry = raw →
           entry ∈ refreshTokens doc.2)
      ∧ (Forall (λ entry, String.length (token entry) = 64%nat) (refreshTokens doc.2) →
         Forall (λ entry, token entry ≠ raw) (refreshTokens saved)).
Proof.
  intros raw issued.
  pose proof (length_nextRefreshToken w) as Hraw. fold raw in Hraw.
  pose proof (digest_differs raw Hraw) as Hdiffers.
  split; [done|]. split; [done|]. split; [done|].
  subst issued. rewrite issueTokensForUser_run.
  split.
  { intros user tokens. unfold issuedTokens.
    destruct (truthy (JWT_SECRET process_env)); [|done].
    destruct (signed _ _); [|done]. cbn. by intros [= <- <-]. }
  exists (reissued doc.2 w), (retained doc.2 w).
  split.
  { destruct (truthy (JWT_SECRET process_env)); [destruct (issuedTokens _ _)|];
      cbn; apply lookup_insert_eq. }
  split; [done|]. split; [apply retained_sublist|].
  split; [apply sha256Hex_length|]. split; [done|]. split.
  - intros entry Hin Heq. apply elem_of_reissued in Hin as [Hin| ->]; [done|].
    by destruct Hdiffers.
  - intros Hdigests. apply Forall_forall. intros entry Hin Heq.
    apply elem_of_reissued in Hin as [Hin| ->]; [|by destruct Hdiffers].
    rewrite Forall_forall in Hdigests. specialize (Hdigests entry Hin).
    rewrite Heq in Hdigests. lia.
Qed.

(** Issuance never saves more than one entry above the capacity. *)
Lemma reissued_length (user : User) (w : World) :
  Z.of_nat (length (refreshTokens (reissued user w))) ≤ capacity + 1.
Proof.
  cbn. rewrite length_app. cbn. pose proof (retained_length user w). lia.
Qed.

Lemma issueTokensForUser_saved (doc : ObjectId * User) (w : World) :
  users (issueTokensForUser doc w).2 = <[doc.1 := reissued doc.2 w]> (users w).
Proof.
  rewrite issueTokensForUser_run.
  destruct (truthy (JWT_SECRET process_env)); [|done].
  by destruct (issuedTokens doc.1 w).
Qed.

(** C1, where the code departs from it. A user who holds exactly
    [MAX_REFRESH_TOKENS] entries (the limit rounded up, should it not
    be whole), none expired, is saved by [issueTokensForUser] with all
    of them and the new one: the limit is enforced before the new entry
    is appended and not afterwards, so the saved collection has
    [MAX_REFRESH_TOKENS + 1] entries and the oldest entry is still
    among them. *)
Theorem issueTokensForUser_exceeds_limit (doc : ObjectId * User) (w : World) :
  Z.of_nat (length (refreshTokens doc.2)) = Qceiling limit →
  Forall (λ entry, laterThan (clock (ticks w)) (expiresAt entry)) (refreshTokens doc.2) →
  ∃ saved : User,
    users (issueTokensForUser doc w).2 !! doc.1 = Some saved
    ∧ refreshTokens saved =
        (refreshTokens doc.2 ++ [entryOf (nextRefreshToken w) (clock (S (ticks w)))])%list
    ∧ Z.of_nat (length (refreshTokens saved))
      = Qceiling limit + 1
    ∧ (limit < inject_Z (Z.of_nat (length (refreshTokens saved))))%Q
    ∧ (∀ whole : Z, (limit == inject_Z whole)%Q →
         Z.of_nat (length (refreshTokens doc.2)) = whole
         ∧ Z.of_nat (length (refreshTokens saved)) = whole + 1).
Proof.
  intros Hfull Hlive. exists (reissued doc.2 w).
  rewrite issueTokensForUser_saved. split; [apply lookup_insert_eq|].
  assert (refreshTokens (reissued doc.2 w) =
          (refreshTokens doc.2 ++ [entryOf (nextRefreshToken w) (clock (S (ticks w)))])%list)
    as Hsaved.
  { cbn. rewrite retained_all; [done| |done]. unfold capacity. lia. }
  split; [done|]. rewrite Hsaved, length_app. cbn [length].
  split; [lia|]. split.
  - pose proof (Qle_ceiling limit) as Hceiling.
    rewrite Nat2Z.inj_add, Hfull, inject_Z_plus.
    change (inject_Z (Z.of_nat 1)) with 1%Q. lra.
  - intros whole Hwhole%capacity_whole. unfold capacity in Hwhole. lia.
Qed.

End Issued.

(** ** The token envelope *)

Section Envelope.
Context {host : Host}.

Lemma issue_answer (code : Z) (message : string) (doc : ObjectId * User) (w : World) :
  Answer (issue code message doc w).1.
Proof.
  destruct (issue_status code message doc w) as [->|(tokens & Htokens & ->)].
  - eapply answer_error; [reflexivity|lia].
  - by eapply (answer_tokens _ _ _ (_, _) w tokens).
Qed.

Lemma signup_answer (body : Body) (w : World) : Answer (signup body w).1.
Proof.
  rewrite signup_run.
  destruct (_ || _).
  { eapply answer_error; [reflexivity|lia]. }
  destruct (findOne _ (users w)).
  { eapply answer_error; [reflexivity|lia]. }
  destruct (default FNull (body_name body));
    try (eapply answer_error; [reflexivity|lia]).
  apply issue_answer.
Qed.

Lemma login_answer (body : Body) (w : World) : Answer (login body w).1.
Proof.
  rewrite login_run.
  destruct (negb (truthy (body_email body)) || negb (truthy (body_password body))).
  { eapply answer_error; [reflexivity|lia]. }
  destruct (findOne _ (users w)) as [doc|].
  2: { eapply answer_error; [reflexivity|lia]. }
  destruct (negb (comparePassword doc.2 _)).
  { eapply answer_error; [reflexivity|lia]. }
  apply issue_answer.
Qed.

Lemma refreshAccessToken_answer (body : Body) (w : World) :
  Answer (refreshAccessToken body w).1.
Proof.
  rewrite refreshAccessToken_run.
  destruct (negb (truthyField (body_refreshToken body))).
  { eapply answer_error; [reflexivity|lia]. }
  destruct (default FNull (body_refreshToken body));
    try (eapply answer_error; [reflexivity|lia]).
  cbv zeta. destruct (findOne _ (users w)) as [doc|].
  2: { eapply answer_error; [reflexivity|lia]. }
  destruct (find _ (refreshTokens doc.2)) as [stored|].
  2: { eapply answer_error; [reflexivity|lia]. }
  case_bool_decide.
  { eapply answer_error; [reflexivity|lia]. }
  apply issue_answer.
Qed.

(** C10. Whenever [signup], [login] or [refreshAccessToken] answers
    with a success status (200 or 201), the body has a [token] field
    and an [accessToken] field, and both hold the same string, the
    access token signed for this answer. *)
Theorem token_and_accessToken_agree (body : Body) (w : World) (res : Response) :
  res = (signup body w).1 ∨ res = (login body w).1
    ∨ res = (refreshAccessToken body w).1 →
  statusCode res = 200 ∨ statusCode res = 201 →
  ∃ (signed : string) (_id : ObjectId) (now : Z),
    field "token" (json res) = Some (JString signed)
    ∧ field "accessToken" (json res) = Some (JString signed)
    ∧ jwtSign _id (default "" (JWT_SECRET process_env))
              (ACCESS_TOKEN_EXPIRES_IN process_env) now = Some signed.
Proof.
  intros Hres Hstatus.
  assert (Answer res) as [code message -> Hcode|code message doc w0 tokens Htokens ->].
  { destruct Hres as [->|[->| ->]];
      [apply signup_answer|apply login_answer|apply refreshAccessToken_answer]. }
  - cbn in Hstatus. lia.
  - unfold issuedTokens, signed in Htokens.
    apply fmap_Some in Htokens as (accessToken & Hsigned & ->).
    by eexists _, _, _.
Qed.

End Envelope.

(** ** Stores the controller builds

    With fresh draws, a digest never comes to be stored for two users:
    this is the standing of the hypotheses [heldByOneUser] and of the
    fresh digest in the theorems on rotation and logout. *)

Section Reachable.
Context {host : Host}.

Lemma holdsToken_sublist (hash : string) (user user' : User) :
  refreshTokens user' `sublist_of` refreshTokens user →
  holdsToken hash user' → holdsToken hash user.
Proof.
  intros Hsub (entry & Hin & Heq)%holdsToken_iff. apply holdsToken_iff.
  exists entry. split; [|done]. by eapply elem_of_sublist.
Qed.

Lemma holdsToken_reissued (hash : string) (user : User) (w : World) :
  holdsToken hash (reissued user w) →
  hash = hashToken (nextRefreshToken w) ∨ holdsToken hash user.
Proof.
  intros (entry & Hin & Heq)%holdsToken_iff.
  apply elem_of_reissued in Hin as [Hin| ->]; [right|by left].
  apply holdsToken_iff. eauto.
Qed.

Lemma holdsToken_removed (hash hash' : string) (user : User) :
  holdsToken hash (removeRefreshToken user hash').1 → holdsToken hash user.
Proof. apply holdsToken_sublist. cbn. apply sublist_filter. Qed.

Lemma effect_issue (w w0 : World) (doc : ObjectId * User) (user : User) :
  users w0 = users w → nextRefreshToken w0 = nextRefreshToken w →
  users w !! doc.1 = Some doc.2 →
  refreshTokens user `sublist_of` refreshTokens doc.2 →
  Effect w (users (savedWorld (doc.1, user) w0)).
Proof.
  intros Husers Hnext Hdoc Hsub. eapply effect_save.
  { cbn. by rewrite Husers. }
  intros hash [->|Hheld]%holdsToken_reissued; [left; by rewrite Hnext|right].
  exists doc.2. split; [done|]. by eapply holdsToken_sublist.
Qed.

Lemma effect_clean (w w0 : World) (doc : ObjectId * User) (hash : string) :
  users w0 = users w → users w !! doc.1 = Some doc.2 →
  Effect w (<[doc.1 := (removeRefreshToken doc.2 hash).1]> (users w0)).
Proof.
  intros Husers Hdoc. eapply effect_save; [by rewrite Husers|].
  intros hash' Hheld%holdsToken_removed. right. eauto.
Qed.

Lemma handle_effect (request : Request) (w : World) :
  Effect w (users (handle request w).2).
Proof.
  destruct request as [body|body|body|body]; cbn [handle].
  - rewrite signup_run.
    destruct (_ || _); [by apply effect_none|].
    destruct (findOne _ (users w)) eqn:Hfound; [by apply effect_none|].
    destruct (default FNull (body_name body)) as [| | |name|];
      try by apply effect_none.
    cbv zeta. set (user := created _ _ _).
    assert (users w !! fresh (dom (users w)) = None) as Hfresh.
    { apply not_elem_of_dom, is_fresh. }
    eapply effect_save.
    { rewrite issue_users. cbn. apply insert_insert_eq. }
    intros hash [->|Hheld]%holdsToken_reissued; [by left|].
    apply holdsToken_iff in Hheld as (entry & Hin & _). by apply elem_of_nil in Hin.
  - rewrite login_run.
    destruct (_ || _); [by apply effect_none|].
    destruct (findOne _ (users w)) as [doc|] eqn:Hfound; [|by apply effect_none].
    apply findOne_Some in Hfound as [Hdoc _].
    destruct (negb _); [by apply effect_none|].
    rewrite issue_users.
    destruct doc as [i user]. by apply (effect_issue w w (i, user) user).
  - rewrite refreshAccessToken_run.
    destruct (negb _); [by apply effect_none|].
    destruct (default FNull (body_refreshToken body)) as [| | |raw|];
      try by apply effect_none.
    cbv zeta.
    destruct (findOne _ (users w)) as [doc|] eqn:Hfound; [|by apply effect_none].
    apply findOne_Some in Hfound as [Hdoc _].
    destruct (find _ (refreshTokens doc.2)); [|by apply (effect_clean w w)].
    case_bool_decide; [by apply (effect_clean w w)|].
    rewrite issue_users.
    apply (effect_issue w (tick w) doc); [done..|]. cbn. apply sublist_filter.
  - rewrite logout_run.
    destruct (negb _); [by apply effect_none|].
    destruct (default FNull (body_refreshToken body)) as [| | |raw|];
      try by apply effect_none.
    cbv zeta. cbn [snd].
    destruct (findOne _ (users w)) as [doc|] eqn:Hfound; [|by apply effect_none].
    apply findOne_Some in Hfound as [Hdoc _].
    destruct (removeRefreshToken doc.2 _).2 eqn:Hremoved; [|by apply effect_none].
    by apply (effect_clean w w).
Qed.

Lemma effect_heldByOneUser (w : World) (collection : gmap ObjectId User) :
  (∀ hash, heldByOneUser hash (users w)) → freshDraw w →
  Effect w collection →
  ∀ hash, heldByOneUser hash collection.
Proof.
  intros Hone Hfresh [->|i saved -> Hsaved] hash; [apply Hone|].
  assert (∀ j v, users w !! j = Some v → holdsToken hash v →
            holdsToken hash saved → j = i) as Hside.
  { intros j v Hj Hv [->|(u & Hi & Hu)]%Hsaved.
    - by destruct (Hfresh j v Hj).
    - by eapply Hone. }
  intros j k u v Hj Hk Hu Hv.
  destruct (decide (j = i)) as [->|Hji], (decide (k = i)) as [->|Hki]; [done|..].
  - rewrite lookup_insert_eq in Hj. injection Hj as <-.
    rewrite lookup_insert_ne in Hk by done. symmetry. by eapply Hside.
  - rewrite lookup_insert_eq in Hk. injection Hk as <-.
    rewrite lookup_insert_ne in Hj by done. by eapply Hside.
  - rewrite lookup_insert_ne in Hj, Hk by done. by eapply Hone.
Qed.

(** In every reachable world each digest is stored for at most one
    user. *)
Lemma reachable_heldByOneUser (w : World) (hash : string) :
  reachable w → heldByOneUser hash (users w).
Proof.
  intros Hreach. revert hash.
  induction Hreach as [w Hempty|w request Hreach IH Hfresh].
  - intros hash i j u v Hi. by rewrite Hempty, lookup_empty in Hi.
  - eapply effect_heldByOneUser; [exact IH|exact Hfresh|apply handle_effect].
Qed.

(** A fresh draw differs in digest from every token that is stored. *)
Lemma freshDraw_differs (w : World) (raw : string) (doc : ObjectId * User) :
  freshDraw w →
  findOne (holdsToken (hashToken raw)) (users w) = Some doc →
  hashToken (nextRefreshToken w) ≠ hashToken raw.
Proof.
  intros Hfresh [Hdoc Hheld]%findOne_Some Heq.
  apply (Hfresh doc.1 doc.2 Hdoc). by rewrite Heq.
Qed.

End Reachable.

(** * The properties on the demonstration host *)

Section Witnesses.
#[local] Existing Instance Demo.host.

Lemma demo_signs (_id : ObjectId) : signs _id.
Proof. split; [reflexivity|]. intros now. by eexists. Qed.

(** C1 on the default limit of five: the fifth login of a user with
    five valid sessions saves six. *)
Lemma issueTokensForUser_exceeds_limit_witness :
  ∃ saved : User,
    users (issueTokensForUser (1%positive, Demo.regular) Demo.fiveSessions).2 !! 1%positive
      = Some saved
    ∧ refreshTokens saved =
        (refreshTokens Demo.regular
           ++ [entryOf (nextRefreshToken Demo.fiveSessions)
                       (clock (S (ticks Demo.fiveSessions)))])%list
    ∧ Z.of_nat (length (refreshTokens saved))
      = Qceiling limit + 1
    ∧ (limit < inject_Z (Z.of_nat (length (refreshTokens saved))))%Q
    ∧ (∀ whole : Z, (limit == inject_Z whole)%Q →
         Z.of_nat (length (refreshTokens Demo.regular)) = whole
         ∧ Z.of_nat (length (refreshTokens saved)) = whole + 1).
Proof.
  apply (issueTokensForUser_exceeds_limit (1%positive, Demo.regular) Demo.fiveSessions).
  - vm_compute. reflexivity.
  - apply (bool_decide_unpack _). vm_compute. exact I.
Defined.

(** The same input through [login]: six entries are stored, the limit
    being five. *)
Example six_sessions_after_five_logins :
  limit = inject_Z 5
  ∧ length <$> (refreshTokens <$> users (Demo.afterLogins 4).2 !! 1%positive) = Some 5%nat
  ∧ statusCode (Demo.afterLogins 5).1 = 200
  ∧ length <$> (refreshTokens <$> users (Demo.afterLogins 5).2 !! 1%positive) = Some 6%nat.
Proof. vm_compute. done. Qed.


(** C4 as the spec words it fails on the message: for a token that was
    never issued the answer is 401 and nothing changes, but the message
    reads "Invalid refresh token", with a capital. *)
Lemma refreshAccessToken_unknown_message :
  let body := Demo.withRefreshToken "never-issued" in
  findOne (holdsToken (hashToken "never-issued")) (users Demo.signedUp) = None
  ∧ refreshAccessToken body Demo.signedUp
      = ({| statusCode := 401; json := [("message", JString "Invalid refresh token")] |},
         Demo.signedUp)
  ∧ field "message" (json (refreshAccessToken body Demo.signedUp).1)
      ≠ Some (JString "invalid refresh token").
Proof. vm_compute. repeat split; done. Qed.

Lemma refreshAccessToken_unknown_witness :
  refreshAccessToken (Demo.withRefreshToken "never-issued") Demo.signedUp
    = (respondMessage 401 "Invalid refresh token", Demo.signedUp).
Proof.
  apply (refreshAccessToken_unknown _ _ "never-issued"); [reflexivity|done|].
  apply unheld_iff. vm_compute. reflexivity.
Defined.

(** C3 as the spec words it fails on the message: the expired session
    [t1] is removed and the answer is 401, but the message reads
    "Refresh token expired", with a capital. *)
Lemma refreshAccessToken_expired_message :
  let body := Demo.withRefreshToken "t1" in
  find (λ entry, token entry = hashToken "t1")
       (refreshTokens (Demo.userWith [Demo.entryFor "t1" 1; Demo.entryFor "t2" 2000000000000]))
    = Some (Demo.entryFor "t1" 1)
  ∧ expiresAt (Demo.entryFor "t1" 1) = Some 1
  ∧ 1 ≤ clock (ticks Demo.staleWorld)
  ∧ refreshAccessToken body Demo.staleWorld
      = ({| statusCode := 401; json := [("message", JString "Refresh token expired")] |},
         {| users := {[ 1%positive := Demo.userWith [Demo.entryFor "t2" 2000000000000] ]};
            writes := 1; ticks := 1; drawn := 0 |})
  ∧ field "message" (json (refreshAccessToken body Demo.staleWorld).1)
      ≠ Some (JString "refresh token expired").
Proof. vm_compute. repeat split; done. Qed.

Lemma refreshAccessToken_expired_witness :
  let doc := (1%positive, Demo.userWith [Demo.entryFor "t1" 1; Demo.entryFor "t2" 2000000000000]) in
  let stored := Demo.entryFor "t1" 1 in
  ∃ (cleaned : User) (w' : World),
    refreshAccessToken (Demo.withRefreshToken "t1") Demo.staleWorld
      = (respondMessage 401 "Refresh token expired", w')
    ∧ users w' = <[doc.1 := cleaned]> (users Demo.staleWorld)
    ∧ cleaned = set_refreshTokens doc.2 (refreshTokens cleaned)
    ∧ stored ∈ refreshTokens doc.2
    ∧ (stored ∉ refreshTokens cleaned)
    ∧ (∀ entry, entry ∈ refreshTokens cleaned ↔
                (entry ∈ refreshTokens doc.2 ∧ token entry ≠ hashToken "t1"))
    ∧ refreshTokens cleaned `sublist_of` refreshTokens doc.2
    ∧ (∀ j, j ≠ doc.1 → users w' !! j = users Demo.staleWorld !! j).
Proof.
  apply (refreshAccessToken_expired (Demo.withRefreshToken "t1") Demo.staleWorld "t1"
           _ _ 1);
    [reflexivity|done|vm_compute; reflexivity|vm_compute; reflexivity|reflexivity|].
  vm_compute. discriminate.
Defined.

Lemma heldByOneUser_singleton (hash : string) (i : ObjectId) (user : User) :
  heldByOneUser hash {[ i := user ]}.
Proof.
  intros j k u v [-> _]%lookup_singleton_Some [-> _]%lookup_singleton_Some _ _.
  reflexivity.
Qed.

Lemma signedUp_users : users Demo.signedUp = {[ 1%positive := Demo.firstUser ]}.
Proof. vm_compute. reflexivity. Qed.

(** C2 as the spec words it fails in a store where two users hold the
    digest of the submitted token: the refresh succeeds and removes the
    entry of the user that the look-up finds, but the entry of the
    other is still there, and submitting the token again is answered
    200, not 401. *)
Lemma refreshAccessToken_reuse_with_two_holders :
  let body := Demo.withRefreshToken "t1" in
  let w := Collision.twoHolders in
  let first := refreshAccessToken body w in
  let second := refreshAccessToken body first.2 in
  findOne (holdsToken (hashToken "t1")) (users w) = Some (2%positive, Collision.second)
  ∧ find (λ entry, token entry = hashToken "t1") (refreshTokens Collision.second)
    = Some (Demo.entryFor "t1" 2000000000000)
  ∧ clock (ticks w) < 2000000000000
  ∧ statusCode first.1 = 200
  ∧ refreshTokens <$> users first.2 !! 1%positive
    = Some [Demo.entryFor "t1" 2000000000000]
  ∧ token (Demo.entryFor "t1" 2000000000000) = hashToken "t1"
  ∧ statusCode second.1 = 200.
Proof. vm_compute. repeat split; done. Qed.

(** C2 after [signup]: the token handed out is exchanged once, and a
    second attempt with it is turned down. *)
Lemma refreshAccessToken_rotates_witness :
  let body := Demo.withRefreshToken Demo.firstToken in
  let w := Demo.signedUp in
  let doc := (1%positive, Demo.firstUser) in
  let stored := entryOf Demo.firstToken 1700000001000 in
  ∃ (res : Response) (w' : World) (rotated : User) (accessToken : string),
    refreshAccessToken body w = (res, w')
    ∧ statusCode res = 200
    ∧ field "refreshToken" (json res) = Some (JString (nextRefreshToken w))
    ∧ field "accessToken" (json res) = Some (JString accessToken)
    ∧ signed doc.1 (clock (S (S (S (ticks w))))) = Some accessToken
    ∧ users w' = <[doc.1 := rotated]> (users w)
    ∧ (∃ kept,
         refreshTokens rotated =
           (kept ++ [{| token := hashToken (nextRefreshToken w);
                        expiresAt := expiry (clock (S (S (ticks w)))) |}])%list
         ∧ kept `sublist_of` refreshTokens doc.2)
    ∧ stored ∈ refreshTokens doc.2
    ∧ (stored ∉ refreshTokens rotated)
    ∧ (∀ i user entry, users w' !! i = Some user → entry ∈ refreshTokens user →
         token entry ≠ hashToken Demo.firstToken)
    ∧ (∀ later, users later = users w' →
         refreshAccessToken body later
           = (respondMessage 401 "Invalid refresh token", later)).
Proof.
  apply (refreshAccessToken_rotates (Demo.withRefreshToken Demo.firstToken)
           Demo.signedUp Demo.firstToken (1%positive, Demo.firstUser)
           (entryOf Demo.firstToken 1700000001000) 1702592001000).
  - reflexivity.
  - vm_compute. discriminate.
  - vm_compute. reflexivity.
  - vm_compute. reflexivity.
  - vm_compute. reflexivity.
  - vm_compute. reflexivity.
  - rewrite signedUp_users. apply heldByOneUser_singleton.
  - vm_compute. discriminate.
  - apply demo_signs.
Defined.



(** The first of the two calls does remove the session, and the store
    after [signup] is one in which one user holds the digest. *)
Example logout_removes_session :
  heldByOneUser (hashToken Demo.firstToken) (users Demo.signedUp)
  ∧ refreshTokens <$>
      users (logout (Demo.withRefreshToken Demo.firstToken) Demo.signedUp).2 !! 1%positive
    = Some [].
Proof.
  split; [rewrite signedUp_users; apply heldByOneUser_singleton|].
  vm_compute. reflexivity.
Qed.

(** C9 on the first issuance of the demonstration host. *)
Lemma refresh_token_stored_as_digest_witness :
  let doc := (1%positive, Demo.userWith []) in
  let w := Demo.emptyWorld in
  let raw := nextRefreshToken w in
  let issued := issueTokensForUser doc w in
  raw = toStringHex (entropy <$> seq (drawn w) 40)
  ∧ String.length raw = 80%nat
  ∧ generateRefreshTokenValue w = (Returned raw, draw 40 w)
  ∧ (∀ user tokens, issued.1 = Returned (user, tokens) → refreshToken tokens = raw)
  ∧ ∃ (saved : User) (kept : list RefreshTokenEntry),
      users issued.2 !! doc.1 = Some saved
      ∧ refreshTokens saved =
          (kept ++ [{| token := sha256Hex raw;
                       expiresAt := expiry (clock (S (ticks w))) |}])%list
      ∧ kept `sublist_of` refreshTokens doc.2
      ∧ String.length (sha256Hex raw) = 64%nat
      ∧ sha256Hex raw ≠ raw
      ∧ (∀ entry, entry ∈ refreshTokens saved → token entry = raw →
           entry ∈ refreshTokens doc.2)
      ∧ (Forall (λ entry, String.length (token entry) = 64%nat) (refreshTokens doc.2) →
         Forall (λ entry, token entry ≠ raw) (refreshTokens saved)).
Proof.
  exact (refresh_token_stored_as_digest (1%positive, Demo.userWith []) Demo.emptyWorld).
Defined.

(** C10 on the answer of [signup]. *)
Lemma token_and_accessToken_agree_witness :
  ∃ (signed : string) (_id : ObjectId) (now : Z),
    field "token" (json (signup Demo.credentials Demo.emptyWorld).1) = Some (JString signed)
    ∧ field "accessToken" (json (signup Demo.credentials Demo.emptyWorld).1)
        = Some (JString signed)
    ∧ jwtSign _id (default "" (JWT_SECRET process_env))
              (ACCESS_TOKEN_EXPIRES_IN process_env) now = Some signed.
Proof.
  apply (token_and_accessToken_agree Demo.credentials Demo.emptyWorld).
  - left. reflexivity.
  - right. vm_compute. reflexivity.
Defined.

End Witnesses.

(** * Further properties of the controller *)

(** ** What the handlers keep *)

Section Kept.
Context {host : Host}.

Lemma step_issue_stored (w w0 : World) (doc : ObjectId * User) (base : User) :
  users w0 = users w → nextRefreshToken w0 = nextRefreshToken w →
  users w !! doc.1 = Some doc.2 →
  base = set_refreshTokens doc.2 (refreshTokens base) →
  refreshTokens base `sublist_of` refreshTokens doc.2 →
  Step w (users (savedWorld (doc.1, base) w0)).
Proof.
  intros Husers Hnext Hdoc Hbase Hsub. eapply (step_issue _ _ doc.1 base w0); [done| |].
  - by rewrite Hdoc.
  - cbn. by rewrite Husers.
Qed.

Lemma step_clean_stored (w : World) (doc : ObjectId * User) (hash : string) :
  users w !! doc.1 = Some doc.2 →
  Step w (<[doc.1 := (removeRefreshToken doc.2 hash).1]> (users w)).
Proof.
  intros Hdoc.
  apply (step_clean _ _ doc.1 doc.2 (removeRefreshToken doc.2 hash).1); [done..| |done].
  cbn. apply sublist_filter.
Qed.

Lemma handle_step (request : Request) (w : World) :
  Step w (users (handle request w).2).
Proof.
  destruct request as [body|body|body|body]; cbn [handle].
  - rewrite signup_run.
    destruct (_ || _); [by apply step_none|].
    destruct (findOne _ (users w)) eqn:Hfound; [by apply step_none|].
    destruct (default FNull (body_name body)) as [| | |name|];
      try by apply step_none.
    cbv zeta. set (user := created _ _ _).
    assert (users w !! fresh (dom (users w)) = None) as Hfresh.
    { apply not_elem_of_dom, is_fresh. }
    eapply (step_issue _ _ (fresh (dom (users w))) user
              (persist w (<[fresh (dom (users w)) := user]> (users w)))).
    + reflexivity.
    + by rewrite Hfresh.
    + rewrite issue_users. cbn. apply insert_insert_eq.
  - rewrite login_run.
    destruct (_ || _); [by apply step_none|].
    destruct (findOne _ (users w)) as [doc|] eqn:Hfound; [|by apply step_none].
    apply findOne_Some in Hfound as [Hdoc _].
    destruct (negb _); [by apply step_none|].
    rewrite issue_users.
    destruct doc as [i user]. apply (step_issue_stored w w (i, user) user); try done.
    by destruct user.
  - rewrite refreshAccessToken_run.
    destruct (negb _); [by apply step_none|].
    destruct (default FNull (body_refreshToken body)) as [| | |raw|];
      try by apply step_none.
    cbv zeta.
    destruct (findOne _ (users w)) as [doc|] eqn:Hfound; [|by apply step_none].
    apply findOne_Some in Hfound as [Hdoc _].
    destruct (find _ (refreshTokens doc.2)); [|by apply step_clean_stored].
    case_bool_decide; [by apply step_clean_stored|].
    rewrite issue_users.
    apply (step_issue_stored w (tick w) doc); [done..|]. cbn. apply sublist_filter.
  - rewrite logout_run.
    destruct (negb _); [by apply step_none|].
    destruct (default FNull (body_refreshToken body)) as [| | |raw|];
      try by apply step_none.
    cbv zeta. cbn [snd].
    destruct (findOne _ (users w)) as [doc|] eqn:Hfound; [|by apply step_none].
    apply findOne_Some in Hfound as [Hdoc _].
    destruct (removeRefreshToken doc.2 _).2 eqn:Hremoved; [|by apply step_none].
    by apply step_clean_stored.
Qed.

(** X1. No handler lets a collection grow past one entry above the
    limit: if every stored user holds at most [MAX_REFRESH_TOKENS + 1]
    entries before a request, the limit being rounded up when it is not
    a whole number, so does every stored user after it, whatever the
    request and its outcome. *)
Theorem handle_keeps_bound (request : Request) (w : World) :
  withinBound (users w) → withinBound (users (handle request w).2).
Proof.
  intros Hbound.
  destruct (handle_step request w) as [->|i old saved Hold _ Hsub ->|i base w0 _ _ ->];
    [done|..]; intros j user Hj.
  - destruct (decide (j = i)) as [->|Hne].
    + rewrite lookup_insert_eq in Hj. injection Hj as <-.
      apply sublist_length in Hsub. specialize (Hbound i old Hold). lia.
    + rewrite lookup_insert_ne in Hj by done. by eapply Hbound.
  - destruct (decide (j = i)) as [->|Hne].
    + rewrite lookup_insert_eq in Hj. injection Hj as <-. apply reissued_length.
    + rewrite lookup_insert_ne in Hj by done. by eapply Hbound.
Qed.

(** X2. No handler removes a user or touches a user's name, e-mail or
    password: a user stored before a request is stored after it under
    the same [_id], changed at most in [refreshTokens]; and all
    documents but at most one are exactly as before. *)
Theorem handle_keeps_accounts (request : Request) (w : World) :
  (∀ i old, users w !! i = Some old →
     ∃ new, users (handle request w).2 !! i = Some new
            ∧ new = set_refreshTokens old (refreshTokens new))
  ∧ ∃ i0, ∀ j, j ≠ i0 → users (handle request w).2 !! j = users w !! j.
Proof.
  assert (∀ user : User, user = set_refreshTokens user (refreshTokens user)) as Hsame.
  { by intros []. }
  destruct (handle_step request w) as [->|i old saved Hold Hsaved _ ->|i base w0 _ Hbase ->].
  - split; [eauto|]. by exists 1%positive.
  - split; [|exists i; intros j Hj; by rewrite lookup_insert_ne].
    intros j user Hj. destruct (decide (j = i)) as [->|Hne].
    + rewrite lookup_insert_eq. exists saved. split; [done|]. congruence.
    + rewrite lookup_insert_ne by done. eauto.
  - split; [|exists i; intros j Hj; by rewrite lookup_insert_ne].
    intros j user Hj. destruct (decide (j = i)) as [->|Hne].
    + rewrite lookup_insert_eq. eexists. split; [done|].
      rewrite Hj in Hbase. destruct Hbase as [-> _]. reflexivity.
    + rewrite lookup_insert_ne by done. eauto.
Qed.

(** X3. Only digests are stored: if every stored [token] is 64
    characters long before a request, the same holds after it, and no
    stored [token] is the raw value of any draw, a string of 80
    characters. *)
Theorem handle_keeps_digests (request : Request) (w : World) :
  digestsOnly (users w) →
  digestsOnly (users (handle request w).2)
  ∧ ∀ w0 i user entry,
      users (handle request w).2 !! i = Some user → entry ∈ refreshTokens user →
      token entry ≠ nextRefreshToken w0.
Proof.
  intros Hdigests.
  assert (digestsOnly (users (handle request w).2)) as Hafter.
  { destruct (handle_step request w)
      as [->|i old saved Hold _ Hsub ->|i base w0 _ Hbase ->];
      [done|..]; intros j user entry Hj Hin.
    - destruct (decide (j = i)) as [->|Hne].
      + rewrite lookup_insert_eq in Hj. injection Hj as <-.
        eapply Hdigests; [exact Hold|]. by eapply elem_of_sublist.
      + rewrite lookup_insert_ne in Hj by done. by eapply Hdigests.
    - destruct (decide (j = i)) as [->|Hne].
      + rewrite lookup_insert_eq in Hj. injection Hj as <-.
        apply elem_of_reissued in Hin as [Hin| ->]; [|apply sha256Hex_length].
        destruct (users w !! i) as [old|] eqn:Hold.
        * destruct Hbase as [_ Hsub].
          eapply Hdigests; [exact Hold|]. by eapply elem_of_sublist.
        * rewrite Hbase in Hin. by apply elem_of_nil in Hin.
      + rewrite lookup_insert_ne in Hj by done. by eapply Hdigests. }
  split; [done|]. intros w0 i user entry Hi Hin Heq.
  pose proof (Hafter i user entry Hi Hin) as Hlen.
  rewrite Heq, length_nextRefreshToken in Hlen. lia.
Qed.

End Kept.

(** ** Requests that are turned down *)

Section Rejections.
Context {host : Host}.

(** Once a handler goes on to issue tokens, its answer is the token
    envelope under the given status or a 500. *)
Lemma issue_not_rejected (code : Z) (message : string) (doc : ObjectId * User)
    (w : World) :
  code = 200 ∨ code = 201 →
  ¬ (statusCode (issue code message doc w).1 = 400
     ∨ statusCode (issue code message doc w).1 = 409
     ∨ statusCode (issue code message doc w).1 = 401).
Proof.
  intros Hcode.
  destruct (issue_status code message doc w) as [->|(tokens & _ & ->)];
    cbn; lia.
Qed.

(** X4. A request that is answered 400 or 409, a login that is answered
    "Invalid credentials" and a refresh that is answered "Invalid
    refresh token" leave the world exactly as it was: nothing is
    written, no clock reading and no entropy is consumed. *)
Theorem rejected_requests_change_nothing (request : Request) (w : World) :
  statusCode (handle request w).1 = 400
  ∨ statusCode (handle request w).1 = 409
  ∨ (handle request w).1 = respondMessage 401 "Invalid credentials"
  ∨ (handle request w).1 = respondMessage 401 "Invalid refresh token" →
  (handle request w).2 = w.
Proof.
  intros Hrejected.
  assert (statusCode (handle request w).1 = 400
          ∨ statusCode (handle request w).1 = 409
          ∨ statusCode (handle request w).1 = 401) as Hstatus.
  { destruct Hrejected as [?|[?|[->| ->]]]; auto. }
  destruct request as [body|body|body|body]; cbn [handle] in *.
  - rewrite signup_run in *.
    destruct (_ || _); [done|].
    destruct (findOne _ (users w)); [done|].
    destruct (default FNull (body_name body)); try done.
    cbv zeta in *. by apply issue_not_rejected in Hstatus; [|right].
  - rewrite login_run in *.
    destruct (_ || _); [done|].
    destruct (findOne _ (users w)) as [doc|]; [|done].
    destruct (negb _); [done|].
    by apply issue_not_rejected in Hstatus; [|left].
  - rewrite refreshAccessToken_run in *.
    destruct (negb _); [done|].
    destruct (default FNull (body_refreshToken body)); try done.
    cbv zeta in *.
    destruct (findOne _ (users w)) as [doc|]; [|done].
    destruct (find _ (refreshTokens doc.2)).
    + case_bool_decide; [cbn in Hrejected; destruct Hrejected as [?|[?|[?|?]]]; done|].
      by apply issue_not_rejected in Hstatus; [|left].
    + cbn in Hrejected; destruct Hrejected as [?|[?|[?|?]]]; done.
  - rewrite logout_run in *.
    destruct (negb _); [done|].
    destruct (default FNull (body_refreshToken body)); try done.
    cbv zeta in *.
    cbn in Hrejected; destruct Hrejected as [?|[?|[?|?]]]; done.
Qed.

(** X5. [login] answers 401 exactly when both fields are given and
    either no user has the e-mail or the password does not match the
    user found; in both cases the answer is the same, "Invalid
    credentials", and the world is unchanged, so the answer does not
    tell which of the two it was. *)
Theorem login_rejection (body : Body) (w : World) :
  let email_ := default "" (body_email body) in
  let password := default "" (body_password body) in
  let unknown := ∀ i user, users w !! i = Some user → email user ≠ email_ in
  let wrong := ∃ doc, findOne (λ u, email u = email_) (users w) = Some doc
                      ∧ comparePassword doc.2 password = false in
  (statusCode (login body w).1 = 401 ↔
     complete [body_email body; body_password body] = true ∧ (unknown ∨ wrong))
  ∧ (statusCode (login body w).1 = 401 →
     login body w = (respondMessage 401 "Invalid credentials", w)).
Proof.
  intros email_ password unknown wrong. subst unknown wrong.
  rewrite login_run. unfold complete. cbn [forallb]. fold email_ password.
  destruct (truthy (body_email body)), (truthy (body_password body)); cbn [negb orb andb];
    try (split; [split; [done|intros [? _]; done]|done]).
  destruct (findOne _ (users w)) as [doc|] eqn:Hfound.
  - destruct (comparePassword doc.2 password) eqn:Hmatch; cbn [negb].
    + assert (statusCode (issue 200 "Login successful" doc w).1 ≠ 401) as Hstatus.
      { intros Hstatus. apply (issue_not_rejected 200 "Login successful" doc w); auto. }
      split; [|done]. split; [done|]. intros [_ [Hunknown|(doc' & Hdoc' & Hwrong)]].
      * apply findOne_Some in Hfound as [Hdoc Hemail]. by destruct (Hunknown _ _ Hdoc).
      * congruence.
    + split; [|done]. split; [|done]. intros _. split; [done|]. right. eauto.
  - split; [|done]. split; [|done]. intros _. split; [done|]. left.
    intros i user Hi Hemail. by eapply findOne_None.
Qed.

End Rejections.

(** ** Signing up *)

Section Signup.
Context {host : Host}.

Lemma retained_nil (user : User) (w : World) :
  refreshTokens user = [] → retained user w = [].
Proof.
  intros Hnil. rewrite retained_drop. unfold live. by rewrite Hnil.
Qed.

Lemma findOne_email_None (collection : gmap ObjectId User) (email_ : string) :
  (∀ i user, collection !! i = Some user → email user ≠ email_) →
  findOne (λ u, email u = email_) collection = None.
Proof. intros Hfree. by apply findOne_None. Qed.

(** [signup] with all three fields and an e-mail that is free, up to
    the issuance. *)
Lemma signup_free (body : Body) (w : World) (name_ email_ password_ : string) :
  body_name body = Some (FString name_) → name_ ≠ "" →
  body_email body = Some email_ → email_ ≠ "" →
  body_password body = Some password_ → password_ ≠ "" →
  (∀ i user, users w !! i = Some user → email user ≠ email_) →
  signup body w =
    issue 201 "User created successfully"
      (fresh (dom (users w)), created (trim name_) email_ password_)
      (persist w (<[fresh (dom (users w)) := created (trim name_) email_ password_]>
                    (users w))).
Proof.
  intros Hname Hname' Hemail Hemail' Hpassword Hpassword' Hfree.
  rewrite signup_run, Hname, Hemail, Hpassword.
  rewrite truthyField_Some, !truthy_Some by done. cbn [negb orb from_option id].
  by rewrite findOne_email_None by done.
Qed.

(** X6. [signup] with a name, an e-mail no stored user has, and a
    password, where signing succeeds (the secret is set and [jwt.sign]
    accepts the configured lifetime), answers 201, stores one new user
    under an [_id] that was free, with the trimmed name, the e-mail,
    the hashed password and exactly one refresh-token entry, the digest
    of the refresh token it returns, and leaves all other users as
    they were. The user object of the answer carries the [_id], the
    name and the e-mail, and nothing else. *)
Theorem signup_creates_account (body : Body) (w : World) (name_ email_ password_ : string) :
  body_name body = Some (FString name_) → name_ ≠ "" →
  body_email body = Some email_ → email_ ≠ "" →
  body_password body = Some password_ → password_ ≠ "" →
  (∀ i user, users w !! i = Some user → email user ≠ email_) →
  (∀ _id, signs _id) →
  ∃ (_id : ObjectId) (res : Response) (w' : World),
    signup body w = (res, w')
    ∧ users w !! _id = None
    ∧ statusCode res = 201
    ∧ field "refreshToken" (json res) = Some (JString (nextRefreshToken w))
    ∧ field "user" (json res)
        = Some (JObject [("id", JObjectId _id); ("name", JString (trim name_));
                         ("email", JString email_)])
    ∧ users w' =
        <[_id := {| name := trim name_; email := email_;
                    password := hashPassword password_;
                    refreshTokens :=
                      [{| token := hashToken (nextRefreshToken w);
                          expiresAt := expiry (clock (S (ticks w))) |}] |}]>
          (users w).
Proof.
  intros Hname Hname' Hemail Hemail' Hpassword Hpassword' Hfree Hsigns.
  exists (fresh (dom (users w))).
  rewrite (signup_free body w name_ email_ password_) by done.
  edestruct (issue_signs 201 "User created successfully") as
    (tokens & _ & Hrefresh & _ & ->); [apply Hsigns|].
  eexists _, _. split; [reflexivity|].
  split; [apply not_elem_of_dom, is_fresh|].
  split; [done|]. split; [cbn; by rewrite Hrefresh|]. split; [done|].
  cbn. unfold reissued. rewrite retained_nil by done. cbn.
  apply insert_insert_eq.
Qed.

(** X7. Without a signing secret [signup] answers 500 "Server error",
    but only after the user was created and saved with a refresh-token
    entry: the account exists, and signing up again with the same
    e-mail is answered 409 "Email already in use". *)
Theorem signup_without_secret (body : Body) (w : World) (name_ email_ password_ : string) :
  body_name body = Some (FString name_) → name_ ≠ "" →
  body_email body = Some email_ → email_ ≠ "" →
  body_password body = Some password_ → password_ ≠ "" →
  (∀ i user, users w !! i = Some user → email user ≠ email_) →
  truthy (JWT_SECRET process_env) = false →
  ∃ (_id : ObjectId) (user : User) (w' : World),
    signup body w = (respondMessage 500 "Server error", w')
    ∧ users w !! _id = None
    ∧ users w' = <[_id := user]> (users w)
    ∧ email user = email_
    ∧ length (refreshTokens user) = 1%nat
    ∧ ∀ later, users later = users w' →
        signup body later = (respondMessage 409 "Email already in use", later).
Proof.
  intros Hname Hname' Hemail Hemail' Hpassword Hpassword' Hfree Hsecret.
  exists (fresh (dom (users w))). eexists _, _. split.
  { rewrite (signup_free body w name_ email_ password_) by done.
    by apply issue_without_secret. }
  split; [apply not_elem_of_dom, is_fresh|].
  split; [cbn; apply insert_insert_eq|]. split; [done|].
  split; [cbn; rewrite retained_nil by done; done|].
  intros later Hlater. rewrite signup_run, Hname, Hemail, Hpassword.
  rewrite truthyField_Some, !truthy_Some by done. cbn [negb orb from_option id].
  destruct (findOne _ (users later)) eqn:Hfound; [done|].
  exfalso. rewrite findOne_None in Hfound.
  assert (users later !! fresh (dom (users w))
          = Some (reissued (created (trim name_) email_ password_)
                    (persist w (<[fresh (dom (users w)) :=
                                    created (trim name_) email_ password_]> (users w)))))
    as Hstored.
  { rewrite Hlater. cbn. apply lookup_insert_eq. }
  by apply (Hfound _ _ Hstored).
Qed.

End Signup.

(** ** What issuance saves *)

Section Saved.
Context {host : Host}.



End Saved.

(** ** A token from issue to redemption *)

Section Lifetime.
Context {host : Host}.

Lemma nextRefreshToken_nonempty (w : World) : nextRefreshToken w ≠ "".
Proof.
  intros Hempty. pose proof (length_nextRefreshToken w) as Hlen.
  rewrite Hempty in Hlen. cbn in Hlen. lia.
Qed.

(** In the saved user the entry of the new token is the first, and the
    only, entry with its digest, provided the user did not hold the
    digest before. *)
Lemma find_reissued (user : User) (w : World) :
  ¬ holdsToken (hashToken (nextRefreshToken w)) user →
  find (λ entry, token entry = hashToken (nextRefreshToken w))
       (refreshTokens (reissued user w))
  = Some (entryOf (nextRefreshToken w) (clock (S (ticks w)))).
Proof.
  intros Hnot. unfold find. cbn [reissued set_refreshTokens refreshTokens].
  rewrite list_find_app_r.
  - cbn. by rewrite decide_True.
  - apply list_find_None, Forall_forall. intros entry Hin Heq.
    apply Hnot, holdsToken_iff. exists entry. split; [|done].
    eapply elem_of_sublist; [exact Hin|apply retained_sublist].
Qed.

Lemma findOne_reissued (w : World) (doc : ObjectId * User) :
  freshDraw w →
  findOne (holdsToken (hashToken (nextRefreshToken w)))
          (<[doc.1 := reissued doc.2 w]> (users w))
  = Some (doc.1, reissued doc.2 w).
Proof.
  intros Hfresh. apply findOne_unique.
  - apply lookup_insert_eq.
  - apply holdsToken_iff.
    exists (entryOf (nextRefreshToken w) (clock (S (ticks w)))). split; [|done].
    cbn. apply elem_of_app. right. by apply list_elem_of_singleton.
  - intros j v Hj Hheld. destruct (decide (j = doc.1)) as [|Hne]; [done|].
    rewrite lookup_insert_ne in Hj by done. by destruct (Hfresh j v Hj).
Qed.

(** X10. Where signing succeeds, the refresh token a successful [login]
    hands out can be redeemed for as long as the clock reads less than
    the time of the entry's expiry, the time of attaching plus
    [REFRESH_TOKEN_TTL_DAYS] days, and not afterwards: while the users
    collection is as [login] left it, [refreshAccessToken] with that
    token answers 200 before the deadline and 401 "Refresh token
    expired" from the deadline on. Where the expiry is an Invalid
    Date, the time being beyond the range of [Date], it answers 200
    whatever the clock reads. The draw of the token is taken to be
    fresh. *)
Theorem login_token_lifetime (body : Body) (w : World) (email_ password_ : string)
    (doc : ObjectId * User) :
  body_email body = Some email_ → email_ ≠ "" →
  body_password body = Some password_ → password_ ≠ "" →
  findOne (λ u, email u = email_) (users w) = Some doc →
  comparePassword doc.2 password_ = true →
  signs doc.1 →
  freshDraw w →
  let raw := nextRefreshToken w in
  let expiresAt :=
    newDate (toNumber (clock (S (ticks w)))
             + REFRESH_TOKEN_TTL_DAYS process_env * DAY_IN_MS)%float in
  statusCode (login body w).1 = 200
  ∧ field "refreshToken" (json (login body w).1) = Some (JString raw)
  ∧ ∀ (later : World) (redeem : Body),
      users later = users (login body w).2 →
      body_refreshToken redeem = Some (FString raw) →
      match expiresAt with
      | Some deadline =>
          (clock (ticks later) < deadline →
             statusCode (refreshAccessToken redeem later).1 = 200)
          ∧ (deadline ≤ clock (ticks later) →
             (refreshAccessToken redeem later).1
               = respondMessage 401 "Refresh token expired")
      | None => statusCode (refreshAccessToken redeem later).1 = 200
      end.
Proof.
  intros Hemail Hemail' Hpassword Hpassword' Hfound Hmatch Hsigns Hfresh raw deadline.
  destruct (issue_signs 200 "Login successful" doc w Hsigns)
    as (tokens & _ & Hrefresh & _ & Hissue).
  assert (login body w =
            (respondWithTokens 200 "Login successful" (doc.1, reissued doc.2 w) tokens,
             tick (savedWorld doc w))) as ->.
  { rewrite login_run, Hemail, Hpassword.
    rewrite !truthy_Some by done. cbn [negb orb from_option id].
    by rewrite Hfound, Hmatch. }
  split; [done|]. split; [cbn; by rewrite Hrefresh|].
  intros later redeem Hlater Hredeem. cbn in Hlater.
  pose proof (findOne_Some _ _ _ Hfound) as [Hdoc _].
  rewrite refreshAccessToken_run, Hredeem.
  rewrite truthyField_Some by apply nextRefreshToken_nonempty.
  cbn [negb from_option id]. cbv zeta. fold raw.
  rewrite Hlater. subst raw. rewrite findOne_reissued by done.
  cbn [fst snd]. rewrite find_reissued by (by apply (Hfresh doc.1)).
  cbn [expiresAt entryOf]. unfold expiry. fold deadline.
  assert (∀ user w0, statusCode (issue 200 "Token refreshed" (doc.1, user) w0).1 = 200)
    as Hstatus.
  { intros user w0.
    by destruct (issue_signs 200 "Token refreshed" (doc.1, user) w0 Hsigns)
      as (? & _ & _ & _ & ->). }
  destruct deadline as [deadline|].
  - split; intros Hclock.
    + rewrite bool_decide_eq_false_2 by (cbn; lia). apply Hstatus.
    + by rewrite bool_decide_eq_true_2 by (cbn; lia).
  - rewrite bool_decide_eq_false_2 by (cbn; tauto). apply Hstatus.
Qed.

(** X11. [logout] revokes: in a store where the token's digest is held
    by at most one user, [logout] with a refresh token answers 200
    "Logged out successfully", and afterwards [refreshAccessToken] with
    the same token is answered 401 "Invalid refresh token" and changes
    nothing, for as long as the users collection is as [logout] left
    it. *)
Theorem logout_revokes (body : Body) (w : World) (raw : string) :
  body_refreshToken body = Some (FString raw) → raw ≠ "" →
  heldByOneUser (hashToken raw) (users w) →
  (logout body w).1 = respondMessage 200 "Logged out successfully"
  ∧ ∀ later, users later = users (logout body w).2 →
      refreshAccessToken body later
      = (respondMessage 401 "Invalid refresh token", later).
Proof.
  intros Hbody Hraw Hone. rewrite (logout_string body w raw) by done.
  split; [done|].
  intros later Hlater.
  apply refreshAccessToken_no_match with raw; [done..|].
  rewrite Hlater. cbn [snd].
  destruct (findOne _ (users w)) as [doc|] eqn:Hfound; [|done].
  pose proof (findOne_Some _ _ _ Hfound) as [Hdoc Hheld].
  rewrite (proj2 (removeRefreshToken_flag doc.2 (hashToken raw)) Hheld).
  apply findOne_None. intros j v Hj Hv. cbn in Hj.
  destruct (decide (j = doc.1)) as [->|Hne].
  - rewrite lookup_insert_eq in Hj. injection Hj as <-.
    by apply (removeRefreshToken_unholds doc.2 (hashToken raw)).
  - rewrite lookup_insert_ne in Hj by done. apply Hne. by eapply Hone.
Qed.

End Lifetime.

(** ** Values that are not strings, and signing that fails *)

Section Thrown.
Context {host : Host}.

(** X21. A refresh token that is present and truthy but is not a string
    (a number, [true], an array, an object) is answered 500 "Server
    error" by [logout] and by [refreshAccessToken]: hashing it throws
    before any look-up, and the world is left as it was. *)
Theorem refreshToken_not_a_string (body : Body) (w : World) (value : Field) :
  body_refreshToken body = Some value →
  truthyField (Some value) = true → (∀ s, value ≠ FString s) →
  logout body w = (respondMessage 500 "Server error", w)
  ∧ refreshAccessToken body w = (respondMessage 500 "Server error", w).
Proof.
  intros Hbody Htruthy Hstring.
  rewrite logout_run, refreshAccessToken_run, Hbody, Htruthy. cbn [negb from_option id].
  destruct value as [| | |s|]; try done. by destruct (Hstring s).
Qed.

(** X22. [signup] with a name that is truthy but is not a string, and
    with an e-mail and a password: where a stored user has the e-mail
    the answer is 409 "Email already in use", and where none has, it is
    500 "Server error", [trim] being called on the name only after the
    look-up; in both cases nothing is created and the world is left as
    it was. *)
Theorem signup_name_not_a_string (body : Body) (w : World) (value : Field)
    (email_ password_ : string) :
  body_name body = Some value →
  truthyField (Some value) = true → (∀ s, value ≠ FString s) →
  body_email body = Some email_ → email_ ≠ "" →
  body_password body = Some password_ → password_ ≠ "" →
  (signup body w).2 = w
  ∧ ((∃ i user, users w !! i = Some user ∧ email user = email_) →
     (signup body w).1 = respondMessage 409 "Email already in use")
  ∧ ((∀ i user, users w !! i = Some user → email user ≠ email_) →
     (signup body w).1 = respondMessage 500 "Server error").
Proof.
  intros Hname Htruthy Hstring Hemail Hemail' Hpassword Hpassword'.
  rewrite signup_run, Hname, Htruthy, Hemail, Hpassword.
  rewrite !truthy_Some by done. cbn [negb orb from_option id].
  destruct (findOne _ (users w)) as [doc|] eqn:Hfound.
  - apply findOne_Some in Hfound as [Hdoc Hdoc'].
    split; [done|]. split; [done|]. intros Hfree. by destruct (Hfree _ _ Hdoc).
  - rewrite findOne_None in Hfound.
    assert (match value with
            | FString name =>
                issue 201 "User created successfully"
                  (fresh (dom (users w)), created (trim name) email_ password_)
                  (persist w (<[fresh (dom (users w)) :=
                                  created (trim name) email_ password_]> (users w)))
            | _ => (respondMessage 500 "Server error", w)
            end = (respondMessage 500 "Server error", w)) as ->.
    { destruct value as [| | |s|]; try done. by destruct (Hstring s). }
    split; [done|]. split; [|done].
    intros (i & user & Hi & Hu). by destruct (Hfound i user).
Qed.


End Thrown.

(** ** E-mail addresses *)

Section Emails.
Context {host : Host}.

(** A document stored after a request was stored before it under the
    same [_id] with the same e-mail, or is new and has an e-mail that no
    user had. *)
Lemma handle_emails (request : Request) (w : World) (i : ObjectId) (new : User) :
  users (handle request w).2 !! i = Some new →
  (∃ old, users w !! i = Some old ∧ email old = email new)
  ∨ (users w !! i = None ∧ ∀ j u, users w !! j = Some u → email u ≠ email new).
Proof.
  assert (∀ (doc : ObjectId * User) (saved : User),
            users w !! doc.1 = Some doc.2 → email saved = email doc.2 →
            <[doc.1 := saved]> (users w) !! i = Some new →
            ∃ old, users w !! i = Some old ∧ email old = email new) as Hsaved.
  { intros doc saved Hdoc Hemail Hi. destruct (decide (i = doc.1)) as [->|Hne].
    - rewrite lookup_insert_eq in Hi. injection Hi as <-. eauto.
    - rewrite lookup_insert_ne in Hi by done. eauto. }
  destruct request as [body|body|body|body]; cbn [handle].
  - rewrite signup_run.
    destruct (_ || _); [eauto|].
    destruct (findOne _ (users w)) eqn:Hfound; [eauto|].
    destruct (default FNull (body_name body)) as [| | |name|]; eauto.
    cbv zeta. set (user := created _ _ _). rewrite issue_users. cbn [fst snd users persist].
    rewrite insert_insert_eq. intros Hnew.
    destruct (decide (i = fresh (dom (users w)))) as [->|Hne].
    + rewrite lookup_insert_eq in Hnew. injection Hnew as <-. right.
      split; [apply not_elem_of_dom, is_fresh|].
      intros j u Hj. rewrite findOne_None in Hfound. by apply (Hfound j u).
    + rewrite lookup_insert_ne in Hnew by done. eauto.
  - rewrite login_run.
    destruct (_ || _); [eauto|].
    destruct (findOne _ (users w)) as [doc|] eqn:Hfound; [|eauto].
    apply findOne_Some in Hfound as [Hdoc _].
    destruct (negb _); [eauto|]. rewrite issue_users. intros Hi. left.
    by apply (Hsaved doc (reissued doc.2 w)).
  - rewrite refreshAccessToken_run.
    destruct (negb _); [eauto|].
    destruct (default FNull (body_refreshToken body)) as [| | |raw|]; eauto.
    cbv zeta.
    destruct (findOne _ (users w)) as [doc|] eqn:Hfound; [|eauto].
    apply findOne_Some in Hfound as [Hdoc _].
    destruct (find _ (refreshTokens doc.2));
      [|intros Hi; left; eapply Hsaved; [exact Hdoc|..]; [|exact Hi]; done].
    case_bool_decide;
      [intros Hi; left; eapply Hsaved; [exact Hdoc|..]; [|exact Hi]; done|].
    rewrite issue_users. intros Hi. left.
    by apply (Hsaved doc (reissued (removeRefreshToken doc.2 (hashToken raw)).1 (tick w))).
  - rewrite logout_run.
    destruct (negb _); [eauto|].
    destruct (default FNull (body_refreshToken body)) as [| | |raw|]; eauto.
    cbv zeta. cbn [snd].
    destruct (findOne _ (users w)) as [doc|] eqn:Hfound; [|eauto].
    apply findOne_Some in Hfound as [Hdoc _].
    destruct (removeRefreshToken doc.2 _).2 eqn:Hremoved; [|eauto].
    intros Hi. left. eapply Hsaved; [exact Hdoc|..]; [|exact Hi]; done.
Qed.

(** A request changes the document under at most one [_id]. *)
Lemma handle_one_document (request : Request) (w : World) :
  ∃ i0, ∀ j, j ≠ i0 → users (handle request w).2 !! j = users w !! j.
Proof.
  destruct (handle_step request w) as [->|i old saved _ _ _ ->|i base w0 _ _ ->].
  - by exists 1%positive.
  - exists i. intros j Hj. by rewrite lookup_insert_ne.
  - exists i. intros j Hj. by rewrite lookup_insert_ne.
Qed.

(** X20. E-mail addresses stay unique: if no two stored users have the
    same e-mail before a request, no two have after it, requests being
    handled one after the other. [signup] is the only handler that adds
    a user, and it does so only under an e-mail that no stored user
    has. *)
Theorem handle_keeps_emails_unique (request : Request) (w : World) :
  uniqueEmails (users w) → uniqueEmails (users (handle request w).2).
Proof.
  intros Hunique i j u v Hi Hj Hemail.
  destruct (handle_one_document request w) as [i0 Hrest].
  destruct (handle_emails request w i u Hi) as [(u0 & Hu0 & Heu)|[Hnone Hfree]],
           (handle_emails request w j v Hj) as [(v0 & Hv0 & Hev)|[Hnone' Hfree']].
  - apply (Hunique i j u0 v0); [done..|]. congruence.
  - destruct (Hfree' i u0 Hu0). congruence.
  - destruct (Hfree j v0 Hv0). congruence.
  - destruct (decide (i = i0)) as [->|Hne].
    + destruct (decide (j = i0)) as [->|Hne']; [done|].
      rewrite Hrest in Hj by done. congruence.
    + rewrite Hrest in Hi by done. congruence.
Qed.

End Emails.

(** * Properties of the transaction controller *)

Section TransactionFields.
Context {runtime : Runtime}.

Abbreviation Value := (JsValue JsObject).
Abbreviation Payload := (gmap string Value).

Lemma sanitize_fold (payload acc : Payload) (fields : list string) (k : string) :
  foldl (λ acc field,
           match payload !! field with
           | Some value => <[field := value]> acc
           | None => acc
           end) acc fields !! k
  = match (if bool_decide (k ∈ fields) then payload !! k else None) with
    | Some value => Some value
    | None => acc !! k
    end.
Proof.
  revert acc. induction fields as [|f rest IH]; intros acc; [done|].
  cbn [foldl]. rewrite IH. clear IH.
  destruct (decide (k = f)) as [->|Hne].
  - rewrite (bool_decide_eq_true_2 (f ∈ f :: rest)) by left.
    case_bool_decide; destruct (payload !! f) eqn:Hf; try done.
    by rewrite lookup_insert_eq.
  - assert (bool_decide (k ∈ f :: rest) = bool_decide (k ∈ rest)) as ->.
    { apply bool_decide_ext. rewrite elem_of_cons. tauto. }
    case_bool_decide; destruct (payload !! k) eqn:Hk; try done;
      destruct (payload !! f); by rewrite ?lookup_insert_ne.
Qed.

Lemma sanitizePayload_lookup (payload : option Payload) (k : string) :
  sanitizePayload payload !! k
  = if bool_decide (k ∈ allowedFields) then default ∅ payload !! k else None.
Proof.
  unfold sanitizePayload. cbv zeta. rewrite sanitize_fold.
  case_bool_decide; [|done]. by destruct (default ∅ payload !! k).
Qed.

(** X12. [sanitizePayload] keeps exactly the fields of the allow-list
    that the body defines, with their values, and nothing else: a
    field outside the list, such as [user] or [_id], never passes, a
    missing body gives the empty payload, and sanitising twice is
    sanitising once. *)
Theorem sanitizePayload_allow_list (payload : option Payload) :
  (∀ field, sanitizePayload payload !! field
            = if bool_decide (field ∈ allowedFields)
              then default ∅ payload !! field else None)
  ∧ sanitizePayload payload !! "user" = None
  ∧ sanitizePayload payload !! "_id" = None
  ∧ sanitizePayload None = ∅
  ∧ sanitizePayload (Some (sanitizePayload payload)) = sanitizePayload payload.
Proof.
  split; [apply sanitizePayload_lookup|].
  split; [by rewrite sanitizePayload_lookup|].
  split; [by rewrite sanitizePayload_lookup|].
  split; [done|].
  apply map_eq. intros k. rewrite (sanitizePayload_lookup (Some _)). cbn [default from_option id].
  rewrite !sanitizePayload_lookup. by case_bool_decide.
Qed.

Lemma response_fold (transaction acc : Payload) (fields : list (string * string))
    (k : string) :
  NoDup fields.*1 →
  foldl (λ acc field,
           match transaction !! field.2 with
           | Some value => <[field.1 := value]> acc
           | None => acc
           end) acc fields !! k
  = match (list_to_map fields : gmap string string) !! k with
    | Some source =>
        match transaction !! source with
        | Some value => Some value
        | None => acc !! k
        end
    | None => acc !! k
    end.
Proof.
  revert acc. induction fields as [|[target source] rest IH]; intros acc Hnodup; [done|].
  apply NoDup_cons in Hnodup as [Hfresh Hnodup].
  cbn [foldl list_to_map foldr fst snd]. rewrite IH by done. clear IH.
  destruct (decide (k = target)) as [->|Hne].
  - rewrite lookup_insert_eq.
    assert ((list_to_map rest : gmap string string) !! target = None) as ->.
    { by apply not_elem_of_list_to_map_1. }
    destruct (transaction !! source); [by rewrite lookup_insert_eq|done].
  - rewrite lookup_insert_ne by done.
    destruct (transaction !! source); by rewrite ?lookup_insert_ne.
Qed.

(** X13. The transaction object of an answer carries the document's
    [_id] as [id] and the twelve fields named in
    [buildTransactionResponse] under their own names, each only when
    the document defines it, and nothing else: the owner [user], [_id]
    and the version key of the document are never sent. *)
Theorem buildTransactionResponse_fields (transaction : Payload) :
  buildTransactionResponse transaction !! "id" = transaction !! "_id"
  ∧ (∀ field, field ∈ ["name"; "amount"; "category"; "transaction_date"; "note";
                       "payment_method"; "reference_id"; "source"; "sms_body";
                       "is_auto"; "createdAt"; "updatedAt"] →
       buildTransactionResponse transaction !! field = transaction !! field)
  ∧ (∀ field, field ∉ "id" :: allowedFields ++ ["createdAt"; "updatedAt"] →
       buildTransactionResponse transaction !! field = None)
  ∧ buildTransactionResponse transaction !! "user" = None
  ∧ buildTransactionResponse transaction !! "_id" = None
  ∧ buildTransactionResponse transaction !! "__v" = None.
Proof.
  assert (NoDup responseFields.*1) as Hnodup.
  { apply (bool_decide_unpack _). vm_compute. exact I. }
  assert (∀ k, buildTransactionResponse transaction !! k
             = match (list_to_map responseFields : gmap string string) !! k with
               | Some source => transaction !! source
               | None => None
               end) as Hlookup.
  { intros k. unfold buildTransactionResponse. rewrite response_fold by done.
    destruct (list_to_map responseFields !! k); [|done].
    by destruct (transaction !! _). }
  split; [by rewrite Hlookup|].
  split.
  { intros field Hin. rewrite Hlookup.
    repeat (apply elem_of_cons in Hin as [->|Hin]; [done|]).
    by apply elem_of_nil in Hin. }
  split.
  { intros field Hout. rewrite Hlookup.
    destruct (list_to_map responseFields !! field) as [source|] eqn:Hfield; [|done].
    exfalso. apply Hout.
    apply elem_of_list_to_map_2 in Hfield.
    repeat (apply elem_of_cons in Hfield as [[= -> ->]|Hfield];
            [apply (bool_decide_unpack _); vm_compute; exact I|]).
    by apply elem_of_nil in Hfield. }
  by rewrite !Hlookup.
Qed.

End TransactionFields.

Section TransactionValidation.
Context {runtime : Runtime}.

Abbreviation Value := (JsValue JsObject).
Abbreviation Payload := (gmap string Value).

Lemma amount_date_Continue (p after : Payload) :
  andThen
    (match p !! "amount" with
     | Some value =>
         match normalizeAmount value with
         | Some normalizedAmount =>
             if PrimFloat.ltb normalizedAmount 0
             then Return "Amount must be a non-negative number"
             else Continue (<["amount" := VNumber normalizedAmount]> p)
         | None => Return "Amount must be a non-negative number"
         end
     | None => Continue p
     end)
    (λ payload,
    match payload !! "transaction_date" with
    | Some value =>
        match normalizeTransactionDate value with
        | Some normalizedDate =>
            Continue (<["transaction_date" := normalizedDate]> payload)
        | None => Return "Invalid transaction_date provided"
        end
    | None => Continue payload
    end) = Continue after →
  (∀ k, k ≠ "amount" → k ≠ "transaction_date" → after !! k = p !! k)
  ∧ match p !! "amount" with
    | Some value =>
        after !! "amount" = Some (VNumber (Number_ value))
        ∧ PrimFloat.is_nan (Number_ value) = false
        ∧ PrimFloat.ltb (Number_ value) 0 = false
    | None => after !! "amount" = None
    end
  ∧ match p !! "transaction_date" with
    | Some value =>
        ∃ time, after !! "transaction_date" = Some (VDate time)
                ∧ PrimFloat.is_nan time = false
                ∧ time = match value with VDate t => t | _ => dateTime value end
    | None => after !! "transaction_date" = None
    end.
Proof.
  assert (∀ q : Payload,
            match q !! "transaction_date" with
            | Some value =>
                match normalizeTransactionDate value with
                | Some normalizedDate =>
                    Continue (<["transaction_date" := normalizedDate]> q)
                | None => Return "Invalid transaction_date provided"
                end
            | None => Continue q
            end = Continue after →
            (∀ k, k ≠ "transaction_date" → after !! k = q !! k)
            ∧ match q !! "transaction_date" with
              | Some value =>
                  ∃ time, after !! "transaction_date" = Some (VDate time)
                          ∧ PrimFloat.is_nan time = false
                          ∧ time = match value with VDate t => t | _ => dateTime value end
              | None => after !! "transaction_date" = None
              end) as Hdate.
  { intros q Hq. destruct (q !! "transaction_date") as [value|] eqn:Hfield.
    - unfold normalizeTransactionDate in Hq. cbv zeta in Hq.
      destruct (PrimFloat.is_nan _) eqn:Hnan; [done|]. injection Hq as <-.
      split; [intros k Hk; by rewrite lookup_insert_ne|].
      eexists. rewrite lookup_insert_eq.
      split; [reflexivity|]. split; [exact Hnan|reflexivity].
    - injection Hq as <-. done. }
  destruct (p !! "amount") as [value|] eqn:Hamount; cbn [andThen].
  - unfold normalizeAmount. cbv zeta.
    destruct (PrimFloat.is_nan (Number_ value)) eqn:Hnan; [done|].
    destruct (PrimFloat.ltb (Number_ value) 0) eqn:Hneg; [done|]. cbn [andThen].
    intros [Hother Hfield]%Hdate.
    rewrite lookup_insert_ne in Hfield by done.
    split; [intros k Hk1 Hk2; rewrite Hother by done; by rewrite lookup_insert_ne|].
    split; [|done]. rewrite Hother by done. by rewrite lookup_insert_eq.
  - intros [Hother Hfield]%Hdate.
    split; [intros k Hk1 Hk2; by apply Hother|].
    split; [|done]. by rewrite Hother.
Qed.

Lemma normalize_Continue (payload after : Payload) (requireNameAndAmount : bool) :
  normalizeTransactionPayload payload requireNameAndAmount = Continue after →
  normalised requireNameAndAmount payload after.
Proof.
  unfold normalizeTransactionPayload, normalised.
  destruct (requireNameAndAmount && _) eqn:Hrequired; [done|]. cbn [andThen].
  assert (requireNameAndAmount = true →
          jsTruthy (payload !! "name") = true ∧ is_Some (payload !! "amount")) as Hreq.
  { intros ->. cbn in Hrequired. apply orb_false_iff in Hrequired as [Hname Hamount].
    apply negb_false_iff in Hname. apply bool_decide_eq_false in Hamount.
    split; [done|]. destruct (payload !! "amount"); [by eexists|done]. }
  destruct (jsTruthy (payload !! "name")) eqn:Htruthy.
  - destruct (payload !! "name") as [[| | |s| |]|] eqn:Hname; cbn [andThen]; try done.
    cbv zeta. clear Hrequired. case_bool_decide as Hempty; cbn [andThen]; [done|].
    intros (Hother & Hamount & Hdate)%amount_date_Continue.
    rewrite !lookup_insert_ne in Hamount, Hdate by done.
    split; [done|].
    split; [intros k Hk1 Hk2 Hk3; rewrite Hother by done; by rewrite lookup_insert_ne|].
    split; [|done].
    cbn in Htruthy. apply negb_true_iff in Htruthy. rewrite Htruthy.
    rewrite Hother by done. rewrite lookup_insert_eq. split; [done|].
    intros Htrim. apply Hempty. by rewrite Htrim.
  - cbn [andThen]. intros (Hother & Hamount & Hdate)%amount_date_Continue.
    split; [done|]. split; [intros k Hk1 Hk2 Hk3; by apply Hother|].
    split; [|done]. rewrite Hother by done.
    destruct (payload !! "name") as [[| | |s| |]|] eqn:Hname; try done.
    cbn in Htruthy. apply negb_false_iff in Htruthy. rewrite Htruthy.
    apply String.eqb_eq in Htruthy. by subst.
Qed.

(** X14. [normalizeTransactionPayload] returns [null] exactly for the
    payloads that: have, where name and amount are required, a truthy
    name and an amount; have a name that, if truthy, is a string with
    something left after trimming; have an amount, if any, whose
    [Number] is neither NaN nor below zero; and have a
    [transaction_date], if any, that makes a valid date. The payload is
    then left with the name trimmed, the amount replaced by its number,
    the date replaced by a [Date], and every other field as it was. *)
Theorem normalizeTransactionPayload_accepts (payload : Payload)
    (requireNameAndAmount : bool) :
  ((∃ after, normalizeTransactionPayload payload requireNameAndAmount = Continue after)
   ↔ acceptable requireNameAndAmount payload)
  ∧ ∀ after, normalizeTransactionPayload payload requireNameAndAmount = Continue after →
      normalised requireNameAndAmount payload after.
Proof.
  split; [|intros after; apply normalize_Continue]. split.
  - intros [after (Hreq & _ & Hname & Hamount & Hdate)%normalize_Continue].
    split; [done|]. split; [|split].
    + intros Htruthy.
      destruct (payload !! "name") as [[| | |s| |]|]; try (destruct Hname; congruence).
      cbn in Htruthy. apply negb_true_iff in Htruthy. rewrite Htruthy in Hname.
      exists s. by destruct Hname.
    + intros value Hvalue. rewrite Hvalue in Hamount. by destruct Hamount.
    + intros value Hvalue. rewrite Hvalue in Hdate.
      destruct Hdate as (time & _ & Hnan & ->). done.
  - intros (Hreq & Hname & Hamount & Hdate).
    unfold normalizeTransactionPayload.
    assert (requireNameAndAmount
            && (negb (jsTruthy (payload !! "name"))
                || bool_decide (payload !! "amount" = None)) = false) as ->.
    { destruct requireNameAndAmount; [|done]. destruct Hreq as [-> [v Hv]]; [done|].
      rewrite Hv. cbn [negb orb andb]. by rewrite bool_decide_eq_false_2. }
    cbn [andThen].
    assert (∀ p : Payload,
              p !! "amount" = payload !! "amount" →
              p !! "transaction_date" = payload !! "transaction_date" →
              ∃ after,
                andThen
                  (match p !! "amount" with
                   | Some value =>
                       match normalizeAmount value with
                       | Some normalizedAmount =>
                           if PrimFloat.ltb normalizedAmount 0
                           then Return "Amount must be a non-negative number"
                           else Continue (<["amount" := VNumber normalizedAmount]> p)
                       | None => Return "Amount must be a non-negative number"
                       end
                   | None => Continue p
                   end)
                  (λ payload,
                  match payload !! "transaction_date" with
                  | Some value =>
                      match normalizeTransactionDate value with
                      | Some normalizedDate =>
                          Continue (<["transaction_date" := normalizedDate]> payload)
                      | None => Return "Invalid transaction_date provided"
                      end
                  | None => Continue payload
                  end) = Continue after) as Htail.
    { intros p Hp1 Hp2.
      assert (∀ q : Payload,
                q !! "transaction_date" = payload !! "transaction_date" →
                ∃ after,
                  match q !! "transaction_date" with
                  | Some value =>
                      match normalizeTransactionDate value with
                      | Some normalizedDate =>
                          Continue (<["transaction_date" := normalizedDate]> q)
                      | None => Return "Invalid transaction_date provided"
                      end
                  | None => Continue q
                  end = Continue after) as Hlast.
      { intros q ->. destruct (payload !! "transaction_date") as [value|]; [|by eexists].
        unfold normalizeTransactionDate. cbv zeta. rewrite (Hdate value eq_refl).
        by eexists. }
      rewrite Hp1. destruct (payload !! "amount") as [value|]; cbn [andThen].
      - destruct (Hamount value eq_refl) as [Hnan Hneg].
        unfold normalizeAmount. cbv zeta. rewrite Hnan, Hneg. cbn [andThen].
        apply Hlast. by rewrite lookup_insert_ne.
      - by apply Hlast. }
    destruct (jsTruthy (payload !! "name")) eqn:Htruthy.
    + destruct Hname as (s & Hs & Htrim); [done|]. rewrite Hs. cbv zeta.
      rewrite bool_decide_eq_false_2.
      * cbn [andThen]. apply Htail; by rewrite lookup_insert_ne.
      * intros Hlen. apply Htrim. by destruct (stringTrim s).
    + cbn [andThen]. by apply Htail.
Qed.

End TransactionValidation.

(** ** The handlers and the model *)

Section TransactionHandlers.
Context {runtime : Runtime} {model : TransactionModel}.

Abbreviation Value := (JsValue JsObject).
Abbreviation Payload := (gmap string Value).

(** The normalisation neither adds nor removes a field. *)
Lemma normalised_is_Some (requireNameAndAmount : bool) (before after : Payload)
    (field : string) :
  normalised requireNameAndAmount before after →
  is_Some (after !! field) ↔ is_Some (before !! field).
Proof.
  intros (_ & Hother & Hname & Hamount & Hdate).
  destruct (decide (field = "name")) as [->|Hne1].
  { destruct (before !! "name") as [[| | |s| |]|]; try (destruct Hname as [-> _]; done).
    destruct (String.eqb s ""); [by rewrite Hname|]. destruct Hname as [-> _].
    split; by eexists. }
  destruct (decide (field = "amount")) as [->|Hne2].
  { destruct (before !! "amount"); [|by rewrite Hamount].
    destruct Hamount as [-> _]. split; by eexists. }
  destruct (decide (field = "transaction_date")) as [->|Hne3].
  { destruct (before !! "transaction_date"); [|by rewrite Hdate].
    destruct Hdate as (time & -> & _). split; by eexists. }
  by rewrite Hother.
Qed.

Lemma normalised_allowed (requireNameAndAmount : bool) (body : option Payload)
    (after : Payload) (field : string) :
  normalised requireNameAndAmount (sanitizePayload body) after →
  is_Some (after !! field) → field ∈ allowedFields.
Proof.
  intros Hnormalised Hfield.
  apply (normalised_is_Some _ _ _ field Hnormalised) in Hfield.
  rewrite sanitizePayload_lookup in Hfield.
  case_bool_decide; [done|]. by destruct Hfield.
Qed.

Lemma withOwner_lookup (user : Value) (payload : Payload) (field : string) :
  withOwner user payload !! field
  = match payload !! field with
    | Some value => Some value
    | None => if decide (field = "user") then Some user else None
    end.
Proof.
  unfold withOwner. rewrite lookup_union.
  destruct (payload !! field) as [value|].
  - by destruct ({[ "user" := user ]} !! field).
  - rewrite (left_id None _). destruct (decide (field = "user")) as [->|Hne].
    + apply lookup_singleton_eq.
    + by apply lookup_singleton_ne.
Qed.

(** The calls of the handlers that validate: none unless the
    normalisation went through, and then one, with the payload as it
    was left. *)
Lemma createTransaction_calls (req : Req) (call : ModelCall) :
  call ∈ (createTransaction req).2 →
  ∃ after, normalised true (sanitizePayload (req_body req)) after
           ∧ call = Create (withOwner (req_user req) after)
           ∧ (createTransaction req).2 = [call].
Proof.
  unfold createTransaction. cbv zeta.
  destruct (normalizeTransactionPayload _ true) as [after| |] eqn:Hflow;
    [|by intros ?%elem_of_nil..].
  apply normalize_Continue in Hflow. intros Hcall. exists after.
  destruct (reply _) as [[?|]|]; apply list_elem_of_singleton in Hcall as ->; done.
Qed.

Lemma updateTransaction_calls (req : Req) (call : ModelCall) :
  call ∈ (updateTransaction req).2 →
  ∃ after, normalised true (sanitizePayload (req_body req)) after
           ∧ call = FindOneAndUpdate (req_id req) (req_user req) after
           ∧ (updateTransaction req).2 = [call].
Proof.
  unfold updateTransaction. cbv zeta.
  destruct (normalizeTransactionPayload _ true) as [after| |] eqn:Hflow;
    [|by intros ?%elem_of_nil..].
  apply normalize_Continue in Hflow. intros Hcall. exists after.
  destruct (reply _) as [[?|]|]; apply list_elem_of_singleton in Hcall as ->; done.
Qed.

Lemma partialUpdateTransaction_calls (req : Req) (call : ModelCall) :
  call ∈ (partialUpdateTransaction req).2 →
  ∃ after, normalised false (sanitizePayload (req_body req)) after
           ∧ sanitizePayload (req_body req) ≠ ∅
           ∧ call = FindOneAndUpdate (req_id req) (req_user req) after
           ∧ (partialUpdateTransaction req).2 = [call].
Proof.
  unfold partialUpdateTransaction. cbv zeta.
  case_bool_decide as Hsize; [by intros ?%elem_of_nil|].
  destruct (normalizeTransactionPayload _ false) as [after| |] eqn:Hflow;
    [|by intros ?%elem_of_nil..].
  apply normalize_Continue in Hflow. intros Hcall. exists after.
  split; [done|]. split; [by intros Hempty%map_size_empty_iff|].
  destruct (reply _) as [[?|]|]; apply list_elem_of_singleton in Hcall as ->; done.
Qed.

Lemma normalised_nonempty (requireNameAndAmount : bool) (before after : Payload) :
  normalised requireNameAndAmount before after → before ≠ ∅ → after ≠ ∅.
Proof.
  intros Hnormalised Hbefore Hafter. apply Hbefore. apply map_empty. intros field.
  apply eq_None_not_Some. intros Hfield.
  apply (normalised_is_Some _ _ _ field Hnormalised) in Hfield.
  rewrite Hafter, lookup_empty in Hfield. by destruct Hfield.
Qed.

(** X15. The document [createTransaction] hands to the model, if it
    hands one: its [user] is the authenticated user, whatever the body
    says; its other fields are on the allow-list; its name is the
    trimmed name of the body, a string that is not empty; its amount is
    a number that is neither NaN nor below zero; its
    [transaction_date], if any, is a valid [Date]. No other call is
    made. *)
Theorem createTransaction_document (req : Req) (call : ModelCall) :
  call ∈ (createTransaction req).2 →
  ∃ (document : Payload) (given : string) (n : float),
    call = Create document
    ∧ (createTransaction req).2 = [call]
    ∧ document !! "user" = Some (req_user req)
    ∧ (∀ field, is_Some (document !! field) → field = "user" ∨ field ∈ allowedFields)
    ∧ default ∅ (req_body req) !! "name" = Some (VString given)
    ∧ document !! "name" = Some (VString (stringTrim given))
    ∧ stringTrim given ≠ ""
    ∧ document !! "amount" = Some (VNumber n)
    ∧ PrimFloat.is_nan n = false
    ∧ PrimFloat.ltb n 0 = false
    ∧ ∀ value, document !! "transaction_date" = Some value →
        ∃ time, value = VDate time ∧ PrimFloat.is_nan time = false.
Proof.
  intros (after & Hnormalised & -> & Hcalls)%createTransaction_calls.
  pose proof Hnormalised as (Hrequired & Hother & Hname & Hamount & Hdate).
  destruct (Hrequired eq_refl) as [Htruthy [value Hvalue]].
  destruct (sanitizePayload (req_body req) !! "name") as [[| | |given| |]|] eqn:Hgiven;
    try (destruct Hname; congruence).
  cbn in Htruthy. apply negb_true_iff in Htruthy. rewrite Htruthy in Hname.
  destruct Hname as [Hname Htrim].
  rewrite Hvalue in Hamount. destruct Hamount as (Hamount & Hnan & Hneg).
  rewrite sanitizePayload_lookup in Hgiven. cbn in Hgiven.
  exists (withOwner (req_user req) after), given, (Number_ value).
  split; [done|]. split; [done|].
  split.
  { rewrite withOwner_lookup, Hother by done.
    by rewrite sanitizePayload_lookup. }
  split.
  { intros field. rewrite withOwner_lookup.
    destruct (after !! field) eqn:Hfield.
    - intros _. right. apply (normalised_allowed true (req_body req) after); [done|].
      by eexists.
    - destruct (decide (field = "user")); [by left|]. by intros []. }
  split; [done|].
  split; [by rewrite withOwner_lookup, Hname|]. split; [done|].
  split; [by rewrite withOwner_lookup, Hamount|]. split; [done|]. split; [done|].
  intros date. rewrite withOwner_lookup.
  destruct (sanitizePayload (req_body req) !! "transaction_date").
  - destruct Hdate as (time & -> & Htime & _). intros [= <-]. by exists time.
  - by rewrite Hdate.
Qed.

(** X16. Whatever the route and the request, at most one call of the
    model is made, and it is made for the authenticated user: the
    document to create has that user, every filter has that user and,
    on the routes with an id, the id of the request. An update is not
    empty and has no field outside the allow-list, so it cannot move a
    transaction to another user. *)
Theorem router_scoped_to_owner (route : Route) (req : Req) (call : ModelCall) :
  call ∈ (router route req).2 →
  (router route req).2 = [call]
  ∧ ownerOf call = Some (req_user req)
  ∧ match call with
    | Create _ => route = POST_
    | Find _ => route = GET_
    | FindOne _id _ => route = GET_id ∧ _id = req_id req
    | FindOneAndUpdate _id _ update =>
        (route = PUT_id ∨ route = PATCH_id)
        ∧ _id = req_id req
        ∧ update ≠ ∅
        ∧ update !! "user" = None
        ∧ ∀ field, is_Some (update !! field) → field ∈ allowedFields
    | FindOneAndDelete _id _ => route = DELETE_id ∧ _id = req_id req
    end.
Proof.
  assert (∀ required after,
            normalised required (sanitizePayload (req_body req)) after →
            after !! "user" = None) as Huser.
  { intros required after Hnormalised. apply eq_None_not_Some.
    intros Hallowed. apply (normalised_allowed _ _ _ _ Hnormalised) in Hallowed.
    revert Hallowed. apply (bool_decide_unpack _). vm_compute. exact I. }
  destruct route; cbn [router].
  - intros (after & Hnormalised & -> & Hcalls)%createTransaction_calls.
    split; [done|]. split; [|done]. cbn [ownerOf].
    by rewrite withOwner_lookup, (Huser _ _ Hnormalised).
  - unfold getTransactions.
    destruct (found _); intros ->%list_elem_of_singleton; done.
  - unfold getTransactionById. cbv zeta.
    destruct (reply _) as [[?|]|]; intros ->%list_elem_of_singleton; done.
  - intros (after & Hnormalised & -> & Hcalls)%updateTransaction_calls.
    split; [done|]. split; [done|]. split; [by left|]. split; [done|].
    split.
    { apply (normalised_nonempty _ _ _ Hnormalised). intros Hempty.
      destruct Hnormalised as [Hrequired _].
      destruct (Hrequired eq_refl) as [_ [value Hvalue]].
      by rewrite Hempty, lookup_empty in Hvalue. }
    split; [by eapply Huser|]. intros field.
    by apply (normalised_allowed _ _ _ _ Hnormalised).
  - intros (after & Hnormalised & Hnonempty & -> & Hcalls)%partialUpdateTransaction_calls.
    split; [done|]. split; [done|]. split; [by right|]. split; [done|].
    split; [by eapply normalised_nonempty|].
    split; [by eapply Huser|]. intros field.
    by apply (normalised_allowed _ _ _ _ Hnormalised).
  - unfold deleteTransaction. cbv zeta.
    destruct (reply _) as [[?|]|]; intros ->%list_elem_of_singleton; done.
Qed.

(** The messages the normalisation returns. *)
Lemma normalize_Return (payload : Payload) (requireNameAndAmount : bool)
    (message : string) :
  normalizeTransactionPayload payload requireNameAndAmount = Return message →
  message ∈ ["Name and amount are required"; "Name cannot be empty";
             "Amount must be a non-negative number"; "Invalid transaction_date provided"].
Proof.
  unfold normalizeTransactionPayload, andThen. intros Hflow.
  repeat case_match; simplify_eq; set_solver.
Qed.

Lemma normalize_name_throws (payload : Payload) (requireNameAndAmount : bool)
    (value : Value) :
  payload !! "name" = Some value → jsTruthy (Some value) = true →
  (∀ s, value ≠ VString s) →
  (requireNameAndAmount = true → is_Some (payload !! "amount")) →
  normalizeTransactionPayload payload requireNameAndAmount
  = Throw "payload.name.trim is not a function".
Proof.
  intros Hname Htruthy Hstring Hamount. unfold normalizeTransactionPayload.
  rewrite Hname, Htruthy.
  assert (requireNameAndAmount && (negb true || bool_decide (payload !! "amount" = None))
          = false) as ->.
  { destruct requireNameAndAmount; [|done]. cbn [andb negb orb].
    apply bool_decide_eq_false_2. destruct (Hamount eq_refl) as [? ->]. done. }
  cbn [andThen]. rewrite Hname, Htruthy.
  destruct value as [| | |s| |]; try done. by destruct (Hstring s).
Qed.

(** Reads the fields of an answer without unfolding the payloads. *)
Local Ltac answered :=
  cbn [fst snd tx_status tx_message tx_transaction tx_transactions
       txMessage handleServerError].

(** X17. What an answer says of the model. A 400 is decided before the
    model is touched and carries one of five messages; a 404 means that
    the one call made found nothing under the id and the user of the
    request; a transaction in an answer is the document of the model's
    reply to the one call made, as [buildTransactionResponse] renders
    it, with status 201 on creation and 200 otherwise. *)
Theorem answer_follows_model (route : Route) (req : Req) :
  let answer := (router route req).1 in
  let calls := (router route req).2 in
  (tx_status answer = 400 →
     calls = []
     ∧ ∃ message, answer = txMessage 400 message
         ∧ message ∈ ["No valid fields provided for update";
                      "Name and amount are required"; "Name cannot be empty";
                      "Amount must be a non-negative number";
                      "Invalid transaction_date provided"])
  ∧ (tx_status answer = 404 →
       answer = txMessage 404 "Transaction not found"
       ∧ ∃ _id update,
           (calls = [FindOne _id (req_user req)]
            ∨ calls = [FindOneAndUpdate _id (req_user req) update]
            ∨ calls = [FindOneAndDelete _id (req_user req)])
           ∧ _id = req_id req
           ∧ ∀ call, calls = [call] → reply call = Returned None)
  ∧ (∀ transaction, tx_transaction answer = Some transaction →
       ∃ call document,
         calls = [call] ∧ reply call = Returned (Some document)
         ∧ transaction = buildTransactionResponse document
         ∧ tx_status answer = match route with POST_ => 201 | _ => 200 end).
Proof.
  intros answer calls. subst answer calls.
  destruct route; cbn [router].
  - unfold createTransaction. cbv zeta.
    destruct (normalizeTransactionPayload _ true) as [after|message|] eqn:Hflow.
    + destruct (reply _) as [[document|]|] eqn:Hreply; answered;
        (split; [done|]); (split; [done|]); [|done..].
      intros transaction [= <-]. by eexists _, document.
    + apply normalize_Return in Hflow. answered.
      split; [|done]. intros _. split; [done|]. exists message. split; [done|].
      by right.
    + done.
  - unfold getTransactions. by destruct (found _).
  - unfold getTransactionById. cbv zeta.
    destruct (reply _) as [[document|]|] eqn:Hreply; answered;
      (split; [done|]); split; try done.
    + intros transaction [= <-]. by eexists _, document.
    + intros _. split; [done|]. exists (req_id req), ∅. split; [by left|].
      split; [done|]. by intros call [= <-].
  - unfold updateTransaction. cbv zeta.
    destruct (normalizeTransactionPayload _ true) as [after|message|] eqn:Hflow.
    + destruct (reply _) as [[document|]|] eqn:Hreply; answered;
        (split; [done|]); split; try done.
      * intros transaction [= <-]. by eexists _, document.
      * intros _. split; [done|]. exists (req_id req), after. split; [by right; left|].
        split; [done|]. by intros call [= <-].
    + apply normalize_Return in Hflow. answered.
      split; [|done]. intros _. split; [done|]. exists message. split; [done|].
      by right.
    + done.
  - unfold partialUpdateTransaction. cbv zeta.
    case_bool_decide as Hsize.
    { answered. split; [|done]. intros _. split; [done|]. eexists. split; [done|].
      by left. }
    destruct (normalizeTransactionPayload _ false) as [after|message|] eqn:Hflow.
    + destruct (reply _) as [[document|]|] eqn:Hreply; answered;
        (split; [done|]); split; try done.
      * intros transaction [= <-]. by eexists _, document.
      * intros _. split; [done|]. exists (req_id req), after. split; [by right; left|].
        split; [done|]. by intros call [= <-].
    + apply normalize_Return in Hflow. answered.
      split; [|done]. intros _. split; [done|]. exists message. split; [done|].
      by right.
    + done.
  - unfold deleteTransaction. cbv zeta.
    destruct (reply _) as [[document|]|] eqn:Hreply; answered;
      (split; [done|]); split; try done.
    intros _. split; [done|]. exists (req_id req), ∅. split; [by right; right|].
    split; [done|]. by intros call [= <-].
Qed.

(** X18. A name that is truthy but not a string (a number, [true], an
    array, an object) is not refused with a 400: on the routes that
    validate, [trim] is called on it and throws, and the request is
    answered 500 "Server error" without a call of the model. On POST
    and PUT this needs an amount in the body, without which the answer
    is the 400 for a missing amount. *)
Theorem name_not_a_string (route : Route) (req : Req) (body : Payload) (value : Value) :
  route = POST_ ∨ route = PUT_id ∨ route = PATCH_id →
  req_body req = Some body →
  body !! "name" = Some value → jsTruthy (Some value) = true →
  (∀ s, value ≠ VString s) →
  (route ≠ PATCH_id → is_Some (body !! "amount")) →
  router route req = (handleServerError, []).
Proof.
  intros Hroute Hbody Hname Htruthy Hstring Hamount.
  assert (sanitizePayload (req_body req) !! "name" = Some value) as Hsanitized.
  { by rewrite sanitizePayload_lookup, Hbody. }
  assert (∀ required, (required = true → route ≠ PATCH_id) →
            normalizeTransactionPayload (sanitizePayload (req_body req)) required
            = Throw "payload.name.trim is not a function") as Hthrows.
  { intros required Hrequired. apply (normalize_name_throws _ _ value); [done..|].
    intros Htrue. rewrite sanitizePayload_lookup, Hbody. by apply Hamount, Hrequired. }
  destruct Hroute as [->|[->| ->]]; cbn [router].
  - unfold createTransaction. cbv zeta. by rewrite Hthrows.
  - unfold updateTransaction. cbv zeta. by rewrite Hthrows.
  - unfold partialUpdateTransaction. cbv zeta.
    rewrite bool_decide_eq_false_2.
    + by rewrite Hthrows.
    + intros Hempty%map_size_empty_iff. by rewrite Hempty, lookup_empty in Hsanitized.
Qed.

(** X19. PATCH is answered 400 "No valid fields provided for update"
    exactly when the body defines no field of the allow-list; a body
    that defines only other fields, such as [user], is refused in this
    way, and no call of the model is made. *)
Theorem partialUpdateTransaction_needs_a_field (req : Req) :
  ((partialUpdateTransaction req).1 = txMessage 400 "No valid fields provided for update"
   ↔ ∀ field, field ∈ allowedFields → default ∅ (req_body req) !! field = None)
  ∧ ((∀ field, field ∈ allowedFields → default ∅ (req_body req) !! field = None) →
     partialUpdateTransaction req
     = (txMessage 400 "No valid fields provided for update", [])).
Proof.
  assert ((∀ field, field ∈ allowedFields → default ∅ (req_body req) !! field = None)
          ↔ sanitizePayload (req_body req) = ∅) as ->.
  { split.
    - intros Hnone. apply map_empty. intros field. rewrite sanitizePayload_lookup.
      case_bool_decide; [by apply Hnone|done].
    - intros Hempty field Hfield.
      pose proof (sanitizePayload_lookup (req_body req) field) as Hlookup.
      rewrite Hempty, lookup_empty, bool_decide_eq_true_2 in Hlookup by done. done. }
  unfold partialUpdateTransaction. cbv zeta.
  case_bool_decide as Hsize.
  { apply map_size_empty_iff in Hsize. done. }
  assert (sanitizePayload (req_body req) ≠ ∅) as Hnonempty.
  { by intros Hempty%map_size_empty_iff. }
  split; [|done]. split; [|done].
  destruct (normalizeTransactionPayload _ false) as [after|message|] eqn:Hflow.
  - by destruct (reply _) as [[document|]|].
  - apply normalize_Return in Hflow. cbn. intros [= ->]. exfalso. revert Hflow.
    apply (bool_decide_unpack _). vm_compute. exact I.
  - done.
Qed.

End TransactionHandlers.

(** * The further properties on the demonstration hosts *)

Section Demonstrations.
#[local] Existing Instance Demo.host.

Lemma signedUp_withinBound : withinBound (users Demo.signedUp).
Proof.
  rewrite signedUp_users. intros i user [<- <-]%lookup_singleton_Some.
  vm_compute. discriminate.
Qed.

Lemma signedUp_digestsOnly : digestsOnly (users Demo.signedUp).
Proof.
  rewrite signedUp_users. intros i user entry [<- <-]%lookup_singleton_Some.
  intros ->%list_elem_of_singleton. vm_compute. reflexivity.
Qed.

Lemma signedUp_freshDraw : freshDraw Demo.signedUp.
Proof.
  unfold freshDraw, unheld. rewrite signedUp_users.
  intros i user [<- <-]%lookup_singleton_Some.
  rewrite holdsToken_iff. intros (entry & ->%list_elem_of_singleton & Hentry).
  vm_compute in Hentry. discriminate.
Qed.

(** X1 on a login after [signup]. *)
Lemma handle_keeps_bound_witness :
  withinBound (users (handle (Login Demo.credentials) Demo.signedUp).2).
Proof.
  apply (handle_keeps_bound (Login Demo.credentials) Demo.signedUp).
  apply signedUp_withinBound.
Defined.

(** X20 on a second signup with the same e-mail. *)
Lemma handle_keeps_emails_unique_witness :
  uniqueEmails (users (handle (Signup Demo.credentials) Demo.signedUp).2).
Proof.
  apply (handle_keeps_emails_unique (Signup Demo.credentials) Demo.signedUp).
  rewrite signedUp_users.
  intros i j u v [-> _]%lookup_singleton_Some [-> _]%lookup_singleton_Some _.
  reflexivity.
Defined.

(** X3 on a login after [signup]. *)
Lemma handle_keeps_digests_witness :
  digestsOnly (users (handle (Login Demo.credentials) Demo.signedUp).2)
  ∧ ∀ w0 i user entry,
      users (handle (Login Demo.credentials) Demo.signedUp).2 !! i = Some user →
      entry ∈ refreshTokens user →
      token entry ≠ nextRefreshToken w0.
Proof.
  apply (handle_keeps_digests (Login Demo.credentials) Demo.signedUp).
  apply signedUp_digestsOnly.
Defined.

(** X4 on a login with a wrong password. *)
Lemma rejected_requests_change_nothing_witness :
  (handle (Login {| body_name := None; body_email := Some "a@x.com";
                    body_password := Some "q"; body_refreshToken := None |})
          Demo.signedUp).2
  = Demo.signedUp.
Proof.
  apply (rejected_requests_change_nothing
           (Login {| body_name := None; body_email := Some "a@x.com";
                     body_password := Some "q"; body_refreshToken := None |})
           Demo.signedUp).
  right. right. left. vm_compute. reflexivity.
Defined.

(** X6 on the first signup. *)
Lemma signup_creates_account_witness :
  ∃ (_id : ObjectId) (res : Response) (w' : World),
    signup Demo.credentials Demo.emptyWorld = (res, w')
    ∧ users Demo.emptyWorld !! _id = None
    ∧ statusCode res = 201
    ∧ field "refreshToken" (json res)
        = Some (JString (nextRefreshToken Demo.emptyWorld))
    ∧ field "user" (json res)
        = Some (JObject [("id", JObjectId _id); ("name", JString (trim "A"));
                         ("email", JString "a@x.com")])
    ∧ users w' =
        <[_id := {| name := trim "A"; email := "a@x.com";
                    password := hashPassword "p";
                    refreshTokens :=
                      [{| token := hashToken (nextRefreshToken Demo.emptyWorld);
                          expiresAt := expiry (clock (S (ticks Demo.emptyWorld))) |}] |}]>
          (users Demo.emptyWorld).
Proof.
  apply (signup_creates_account Demo.credentials Demo.emptyWorld "A" "a@x.com" "p").
  - reflexivity.
  - discriminate.
  - reflexivity.
  - discriminate.
  - reflexivity.
  - discriminate.
  - intros i user Hi. cbn in Hi. by rewrite lookup_empty in Hi.
  - apply demo_signs.
Defined.

(** X10 on a login after [signup]: the token expires thirty days after
    it was attached. *)
Lemma login_token_lifetime_witness :
  let w := Demo.signedUp in
  let raw := nextRefreshToken w in
  statusCode (login Demo.credentials w).1 = 200
  ∧ field "refreshToken" (json (login Demo.credentials w).1) = Some (JString raw)
  ∧ ∀ (later : World) (redeem : Body),
      users later = users (login Demo.credentials w).2 →
      body_refreshToken redeem = Some (FString raw) →
      match expiry (clock (S (ticks w))) with
      | Some deadline =>
          (clock (ticks later) < deadline →
             statusCode (refreshAccessToken redeem later).1 = 200)
          ∧ (deadline ≤ clock (ticks later) →
             (refreshAccessToken redeem later).1
               = respondMessage 401 "Refresh token expired")
      | None => statusCode (refreshAccessToken redeem later).1 = 200
      end.
Proof.
  apply (login_token_lifetime Demo.credentials Demo.signedUp "a@x.com" "p"
           (1%positive, Demo.firstUser)).
  - reflexivity.
  - discriminate.
  - reflexivity.
  - discriminate.
  - vm_compute. reflexivity.
  - vm_compute. reflexivity.
  - apply demo_signs.
  - apply signedUp_freshDraw.
Defined.

(** The deadline of that token: thirty days after the clock was read. *)
Example login_token_deadline :
  clock (S (ticks Demo.signedUp)) = 1700000004000
  ∧ expiry (clock (S (ticks Demo.signedUp))) = Some 1702592004000.
Proof. vm_compute. done. Qed.

(** With [JWT_REFRESH_DAYS=0.3] the lifetime is 25 920 000 ms: the
    double 0.3 is a little less than three tenths, and its product with
    86 400 000 is rounded to the whole number. *)
Example expiry_of_a_fraction_of_a_day :
  let days := (3 / 10)%float in
  REFRESH_TOKEN_TTL_DAYS (process_env (Host := Lifetimes.host days)) = days
  ∧ (valueOf days * inject_Z 86400000 < inject_Z 25920000)%Q
  ∧ (days * DAY_IN_MS)%float = 25920000%float
  ∧ expiry (host := Lifetimes.host days) 1700000004000 = Some 1700025924000.
Proof. vm_compute. done. Qed.

(** With [JWT_REFRESH_DAYS=100000000] the expiry of a new entry is an
    Invalid Date: the token of a login is redeemed whatever the clock
    reads, here a thousand readings later. *)
Example login_token_without_deadline :
  let days := 100000000%float in
  let raw := nextRefreshToken Demo.signedUp in
  let w := (login (host := Lifetimes.host days) Demo.credentials Demo.signedUp).2 in
  let later := {| users := users w; writes := writes w; ticks := 1000; drawn := drawn w |} in
  expiry (host := Lifetimes.host days) (clock (S (ticks Demo.signedUp))) = None
  ∧ (∃ saved, users w !! 1%positive = Some saved
       ∧ expiresAt <$> last (refreshTokens saved) = Some None)
  ∧ statusCode (refreshAccessToken (host := Lifetimes.host days)
                  (Demo.withRefreshToken raw) later).1 = 200.
Proof. vm_compute. split; [done|]. split; [by eexists|done]. Qed.

(** X11 on the token of [signup]. *)
Lemma logout_revokes_witness :
  (logout (Demo.withRefreshToken Demo.firstToken) Demo.signedUp).1
  = respondMessage 200 "Logged out successfully"
  ∧ ∀ later,
      users later = users (logout (Demo.withRefreshToken Demo.firstToken) Demo.signedUp).2 →
      refreshAccessToken (Demo.withRefreshToken Demo.firstToken) later
      = (respondMessage 401 "Invalid refresh token", later).
Proof.
  apply (logout_revokes (Demo.withRefreshToken Demo.firstToken) Demo.signedUp
           Demo.firstToken).
  - reflexivity.
  - vm_compute. discriminate.
  - rewrite signedUp_users. apply heldByOneUser_singleton.
Defined.

End Demonstrations.

Section DemonstrationsUnconfigured.
#[local] Existing Instance Unconfigured.host.

(** X7 on the first signup where no secret is set. *)
Lemma signup_without_secret_witness :
  ∃ (_id : ObjectId) (user : User) (w' : World),
    signup Demo.credentials Demo.emptyWorld = (respondMessage 500 "Server error", w')
    ∧ users Demo.emptyWorld !! _id = None
    ∧ users w' = <[_id := user]> (users Demo.emptyWorld)
    ∧ email user = "a@x.com"
    ∧ length (refreshTokens user) = 1%nat
    ∧ ∀ later, users later = users w' →
        signup Demo.credentials later
        = (respondMessage 409 "Email already in use", later).
Proof.
  apply (signup_without_secret Demo.credentials Demo.emptyWorld "A" "a@x.com" "p").
  - reflexivity.
  - discriminate.
  - reflexivity.
  - discriminate.
  - reflexivity.
  - discriminate.
  - intros i user Hi. cbn in Hi. by rewrite lookup_empty in Hi.
  - reflexivity.
Defined.


End DemonstrationsUnconfigured.

Section DemonstrationsThrown.

(** X21 on the number 5 as refresh token. *)
Lemma refreshToken_not_a_string_witness :
  let body := {| body_name := None; body_email := None; body_password := None;
                 body_refreshToken := Some (FNumber 5) |} in
  logout (host := Demo.host) body Demo.signedUp
  = (respondMessage 500 "Server error", Demo.signedUp)
  ∧ refreshAccessToken (host := Demo.host) body Demo.signedUp
    = (respondMessage 500 "Server error", Demo.signedUp).
Proof.
  apply (refreshToken_not_a_string (host := Demo.host)
           {| body_name := None; body_email := None; body_password := None;
              body_refreshToken := Some (FNumber 5) |}
           Demo.signedUp (FNumber 5)).
  - reflexivity.
  - reflexivity.
  - discriminate.
Defined.

(** X22 on the number 5 as name, with an e-mail that is free. *)
Lemma signup_name_not_a_string_witness :
  let body := {| body_name := Some (FNumber 5); body_email := Some "b@x.com";
                 body_password := Some "q"; body_refreshToken := None |} in
  (signup (host := Demo.host) body Demo.signedUp).2 = Demo.signedUp
  ∧ ((∃ i user, users Demo.signedUp !! i = Some user ∧ email user = "b@x.com") →
     (signup (host := Demo.host) body Demo.signedUp).1
     = respondMessage 409 "Email already in use")
  ∧ ((∀ i user, users Demo.signedUp !! i = Some user → email user ≠ "b@x.com") →
     (signup (host := Demo.host) body Demo.signedUp).1
     = respondMessage 500 "Server error").
Proof.
  apply (signup_name_not_a_string (host := Demo.host)
           {| body_name := Some (FNumber 5); body_email := Some "b@x.com";
              body_password := Some "q"; body_refreshToken := None |}
           Demo.signedUp (FNumber 5) "b@x.com" "q").
  - reflexivity.
  - reflexivity.
  - discriminate.
  - reflexivity.
  - discriminate.
  - reflexivity.
  - discriminate.
Defined.

(** The answer in that case is the 500. *)
Example signup_with_a_number_as_name :
  signup (host := Demo.host)
    {| body_name := Some (FNumber 5); body_email := Some "b@x.com";
       body_password := Some "q"; body_refreshToken := None |} Demo.signedUp
  = (respondMessage 500 "Server error", Demo.signedUp).
Proof. vm_compute. reflexivity. Qed.


End DemonstrationsThrown.

Section DemonstrationsTransactions.
#[local] Existing Instance DemoTx.runtime.
#[local] Existing Instance DemoTx.model.

(** X15 on a body that names another owner. *)
Lemma createTransaction_document_witness :
  let req := DemoTx.request DemoTx.coffee in
  let call := Create {[ "user" := DemoTx.alice; "name" := VString "Coffee";
                        "amount" := VNumber 3.5; "note" := VNumber 7 ]} in
  ∃ (document : gmap string (JsValue JsObject)) (given : string) (n : float),
    call = Create document
    ∧ (createTransaction req).2 = [call]
    ∧ document !! "user" = Some (req_user req)
    ∧ (∀ field, is_Some (document !! field) → field = "user" ∨ field ∈ allowedFields)
    ∧ default ∅ (req_body req) !! "name" = Some (VString given)
    ∧ document !! "name" = Some (VString (stringTrim given))
    ∧ stringTrim given ≠ ""
    ∧ document !! "amount" = Some (VNumber n)
    ∧ PrimFloat.is_nan n = false
    ∧ PrimFloat.ltb n 0 = false
    ∧ ∀ value, document !! "transaction_date" = Some value →
        ∃ time, value = VDate time ∧ PrimFloat.is_nan time = false.
Proof.
  apply (createTransaction_document (DemoTx.request DemoTx.coffee)).
  vm_compute. left.
Defined.

(** X16 on a PATCH of the note. *)
Lemma router_scoped_to_owner_witness :
  let req := DemoTx.request {[ "note" := VString "milk" ]} in
  let call := FindOneAndUpdate (VString "tx1") DemoTx.alice {[ "note" := VString "milk" ]} in
  (router PATCH_id req).2 = [call]
  ∧ ownerOf call = Some (req_user req)
  ∧ (PATCH_id = PUT_id ∨ PATCH_id = PATCH_id)
  ∧ VString "tx1" = req_id req
  ∧ ({[ "note" := VString "milk" ]} : gmap string (JsValue JsObject)) ≠ ∅
  ∧ ({[ "note" := VString "milk" ]} : gmap string (JsValue JsObject)) !! "user" = None
  ∧ ∀ field,
      is_Some (({[ "note" := VString "milk" ]} : gmap string (JsValue JsObject)) !! field) →
      field ∈ allowedFields.
Proof.
  apply (router_scoped_to_owner PATCH_id (DemoTx.request {[ "note" := VString "milk" ]})
           (FindOneAndUpdate (VString "tx1") DemoTx.alice {[ "note" := VString "milk" ]})).
  vm_compute. left.
Defined.

(** X18 on a POST whose name is the number 5. *)
Lemma name_not_a_string_witness :
  router POST_ (DemoTx.request {[ "name" := VNumber 5; "amount" := VNumber 1 ]})
  = (handleServerError, []).
Proof.
  apply (name_not_a_string POST_
           (DemoTx.request {[ "name" := VNumber 5; "amount" := VNumber 1 ]})
           {[ "name" := VNumber 5; "amount" := VNumber 1 ]} (VNumber 5)).
  - by left.
  - reflexivity.
  - vm_compute. reflexivity.
  - vm_compute. reflexivity.
  - discriminate.
  - intros _. eexists. vm_compute. reflexivity.
Defined.

End DemonstrationsTransactions.
